(** * DatumX: the geodetic computation core

    A shallow embedding of [src/utils/ellipsoids.js], [src/utils/datums.js]
    and the coordinate transformation module (geographic/geocentric
    conversion, Helmert 7-parameter transform, datum pipeline, Vincenty
    inverse geodesic), followed by the other functions of these modules,
    those of [src/utils/projections.js] and of the geoid module, and the
    choice of a coordinate system in the transformation panel.

    JavaScript numbers are IEEE 754 binary64 values.  The numeric code is
    written once, over the interface [JSNum], and read at two instances:

    - [FloatNum]: binary64 arithmetic on Rocq's primitive floats, where
      [+ - * /], [Math.sqrt], [Math.abs] and the comparisons are the
      correctly rounded IEEE operations, and the transcendental functions
      of [Math] (implementation-approximated in ECMAScript) are the fields
      of a library [M : MathLib];
    - [RealNum]: the same expressions over the real numbers, the ideal
      arithmetic against which tolerances of the specification are stated. *)

From Stdlib Require Import ZArith Bool List String Lia.
From Stdlib Require Import Floats.
From Stdlib Require Import Reals Machin Lra Psatz.
From Stdlib Require Import DecimalString.
Import ListNotations.

Set Warnings "-inexact-float".

Local Open Scope string_scope.

(** ** Numbers *)

(** The operations the source applies to numbers.  [fromZ] and [dec] are
    numeric literals: [dec m k] is the decimal literal [m * 10^-k]. *)
Class JSNum (T : Type) : Type := {
  fromZ : Z -> T;
  dec : Z -> nat -> T;
  add : T -> T -> T;
  sub : T -> T -> T;
  mul : T -> T -> T;
  div : T -> T -> T;
  neg : T -> T;
  gt : T -> T -> bool;
  lt : T -> T -> bool;
  strictEq : T -> T -> bool;
  Math_PI : T;
  Math_abs : T -> T;
  Math_sqrt : T -> T;
  Math_sin : T -> T;
  Math_cos : T -> T;
  Math_tan : T -> T;
  Math_atan : T -> T;
  Math_atan2 : T -> T -> T;
  Math_pow : T -> T -> T
}.

Declare Scope js_scope.
Delimit Scope js_scope with js.
Notation "x + y" := (add x y) : js_scope.
Notation "x - y" := (sub x y) : js_scope.
Notation "x * y" := (mul x y) : js_scope.
Notation "x / y" := (div x y) : js_scope.
Notation "- x" := (neg x) : js_scope.
Notation "x >? y" := (gt x y) (at level 70, no associativity) : js_scope.
Notation "x <? y" := (lt x y) (at level 70, no associativity) : js_scope.
Notation "x === y" := (strictEq x y) (at level 70, no associativity) : js_scope.
Notation "x !== y" := (negb (strictEq x y)) (at level 70, no associativity) : js_scope.
Notation "# n" := (fromZ n%Z) (at level 1, format "# n") : js_scope.

(** *** Binary64 *)

(** The transcendental functions of [Math].  ECMAScript leaves their
    values implementation-approximated, so they are a parameter. *)
Class MathLib : Type := {
  lib_sin : float -> float;
  lib_cos : float -> float;
  lib_tan : float -> float;
  lib_atan : float -> float;
  lib_atan2 : float -> float -> float;
  lib_pow : float -> float -> float
}.

Module F.

(** An integer literal.  Exact below [2^53]. *)
Definition ofZ (z : Z) : float :=
  match z with
  | Z0 => 0%float
  | Zpos _ => PrimFloat.of_uint63 (Uint63.of_Z z)
  | Zneg p => PrimFloat.opp (PrimFloat.of_uint63 (Uint63.of_Z (Zpos p)))
  end.

(** A decimal literal [m * 10^-k]: with [m] and [10^k] below [2^53] the
    single correctly rounded division yields the binary64 value nearest
    to the decimal, which is what a JavaScript literal denotes. *)
Definition ofDec (m : Z) (k : nat) : float :=
  PrimFloat.div (ofZ m) (ofZ (10 ^ Z.of_nat k)).

(** [Math.PI], the binary64 value nearest to pi. *)
Definition PI : float := 0x1.921fb54442d18p+1%float.

Definition is_zero (x : float) : bool := PrimFloat.eqb x 0%float.

(** Neither NaN nor an infinity. *)
Definition finite (x : float) : bool :=
  match Prim2SF x with
  | S754_zero _ | S754_finite _ _ _ => true
  | _ => false
  end.

End F.

#[export] Instance FloatNum {M : MathLib} : JSNum float := {|
  fromZ := F.ofZ;
  dec := F.ofDec;
  add := PrimFloat.add;
  sub := PrimFloat.sub;
  mul := PrimFloat.mul;
  div := PrimFloat.div;
  neg := PrimFloat.opp;
  gt := fun x y => PrimFloat.ltb y x;
  lt := PrimFloat.ltb;
  strictEq := PrimFloat.eqb;
  Math_PI := F.PI;
  Math_abs := PrimFloat.abs;
  Math_sqrt := PrimFloat.sqrt;
  Math_sin := lib_sin;
  Math_cos := lib_cos;
  Math_tan := lib_tan;
  Math_atan := lib_atan;
  Math_atan2 := lib_atan2;
  Math_pow := lib_pow
|}.

(** *** Real numbers *)

Module Re.

Definition gtb (x y : R) : bool := if Rgt_dec x y then true else false.
Definition ltb (x y : R) : bool := if Rlt_dec x y then true else false.
Definition eqb (x y : R) : bool := if Req_dec_T x y then true else false.

(** The two-argument arctangent, with values in (-pi, pi]. *)
Definition atan2 (y x : R) : R :=
  if Rlt_dec 0 x then atan (y / x)
  else if Rlt_dec x 0 then
    (if Rle_dec 0 y then atan (y / x) + PI else atan (y / x) - PI)
  else if Rlt_dec 0 y then PI / 2
  else if Rlt_dec y 0 then - PI / 2
  else 0%R.

(** [x^y].  The source raises to the literal exponents 2 and 3, where
    the power is a product also for a base that is not positive. *)
Definition pow (x y : R) : R :=
  if Req_dec_T y 2 then x * x
  else if Req_dec_T y 3 then x * x * x
  else Rpower x y.

End Re.

#[export] Instance RealNum : JSNum R := {|
  fromZ := IZR;
  dec := fun m k => (IZR m / IZR (10 ^ Z.of_nat k))%R;
  add := Rplus;
  sub := Rminus;
  mul := Rmult;
  div := Rdiv;
  neg := Ropp;
  gt := Re.gtb;
  lt := Re.ltb;
  strictEq := Re.eqb;
  Math_PI := PI;
  Math_abs := Rabs;
  Math_sqrt := sqrt;
  Math_sin := sin;
  Math_cos := cos;
  Math_tan := tan;
  Math_atan := atan;
  Math_atan2 := Re.atan2;
  Math_pow := Re.pow
|}.

(** ** Errors *)

(** What a call can throw: [new Error(msg)], or the [TypeError] of a
    property read on [undefined]. *)
Inductive exn : Type :=
  | Error (msg : string)
  | TypeError.

Inductive result (A : Type) : Type :=
  | Ok (a : A)
  | Throw (e : exn).
Arguments Ok {A} a.
Arguments Throw {A} e.

Definition bind {A B : Type} (r : result A) (k : A -> result B) : result B :=
  match r with
  | Ok a => k a
  | Throw e => Throw e
  end.

Notation "x <- r ;; k" := (bind r (fun x => k))
  (at level 61, r at next level, right associativity).

(** ** The numeric core, over any [JSNum] *)

Section Core.

Context {T : Type} {num : JSNum T}.
Local Open Scope js_scope.

(** *** ellipsoids.js *)

Record Ellipsoid : Type := {
  ell_name : string;
  ell_a : T;
  ell_f : T
}.

Definition WGS84 : Ellipsoid :=
  {| ell_name := "WGS84"; ell_a := #6378137; ell_f := #1 / dec 298257223563 9 |}.

Definition ELLIPSOIDS : list (string * Ellipsoid) :=
  [ ("WGS84", WGS84);
    ("GRS80", {| ell_name := "GRS80"; ell_a := #6378137;
                 ell_f := #1 / dec 298257222101 9 |});
    ("ED50", {| ell_name := "International 1924 (Hayford)"; ell_a := #6378388;
                ell_f := #1 / #297 |});
    ("Bessel1841", {| ell_name := "Bessel 1841"; ell_a := dec 6377397155 3;
                      ell_f := #1 / dec 2991528128 7 |});
    ("Clarke1866", {| ell_name := "Clarke 1866"; ell_a := dec 63782064 1;
                      ell_f := #1 / dec 2949786982 7 |});
    ("Clarke1880", {| ell_name := "Clarke 1880"; ell_a := dec 63782492 1;
                      ell_f := #1 / dec 293466021 6 |});
    ("Krassovsky1940", {| ell_name := "Krassovsky 1940"; ell_a := #6378245;
                          ell_f := #1 / dec 2983 1 |});
    ("Airy1830", {| ell_name := "Airy 1830"; ell_a := dec 6377563396 3;
                    ell_f := #1 / dec 2993249646 7 |}) ].

(** [obj[key]] on an object literal's own properties. *)
Fixpoint own {A : Type} (obj : list (string * A)) (key : string) : option A :=
  match obj with
  | [] => None
  | (k, v) :: rest => if String.eqb k key then Some v else own rest key
  end.

Record EllipsoidParams : Type := {
  a : T;
  f : T;
  b : T;
  e : T;
  e2 : T;
  ep : T;
  ep2 : T;
  c : T
}.

Definition getEllipsoidParams (ellipsoid : Ellipsoid) : EllipsoidParams :=
  let a := ell_a ellipsoid in
  let f := ell_f ellipsoid in
  let b := a * (#1 - f) in
  let e2 := #2 * f - f * f in
  let e := Math_sqrt e2 in
  let ep2 := e2 / (#1 - e2) in
  let ep := Math_sqrt ep2 in
  let c := a * a / b in
  {| a := a; f := f; b := b; e := e; e2 := e2; ep := ep; ep2 := ep2; c := c |}.

(** *** datums.js *)

Record HelmertParams : Type := {
  tx : T; ty : T; tz : T;
  rx : T; ry : T; rz : T;
  s : T
}.

Record Datum : Type := {
  name : string;
  ellipsoid : string;
  toWGS84 : HelmertParams
}.

Definition zeroParams : HelmertParams :=
  {| tx := #0; ty := #0; tz := #0; rx := #0; ry := #0; rz := #0; s := #0 |}.

Definition shift (tx ty tz : T) : HelmertParams :=
  {| tx := tx; ty := ty; tz := tz; rx := #0; ry := #0; rz := #0; s := #0 |}.

Definition DATUMS : list (string * Datum) :=
  [ ("WGS84", {| name := "WGS84"; ellipsoid := "WGS84"; toWGS84 := zeroParams |});
    ("ITRF2014", {| name := "ITRF2014"; ellipsoid := "GRS80"; toWGS84 := zeroParams |});
    ("ITRF2020", {| name := "ITRF2020"; ellipsoid := "GRS80"; toWGS84 := zeroParams |});
    ("ETRS89", {| name := "ETRS89"; ellipsoid := "GRS80"; toWGS84 := zeroParams |});
    ("TUREF", {| name := "TUREF"; ellipsoid := "GRS80"; toWGS84 := zeroParams |});
    ("ED50", {| name := "ED50"; ellipsoid := "ED50";
                toWGS84 := shift (- #84) (- #103) (- #127) |});
    ("ED50_Turkey", {| name := "ED50 (Turkey)"; ellipsoid := "ED50";
                       toWGS84 := shift (- #87) (- #98) (- #121) |});
    ("NAD27", {| name := "NAD27"; ellipsoid := "Clarke1866";
                 toWGS84 := shift (- #8) #160 #176 |});
    ("NAD83", {| name := "NAD83"; ellipsoid := "GRS80"; toWGS84 := zeroParams |});
    ("OSGB36", {| name := "OSGB36"; ellipsoid := "Airy1830";
                  toWGS84 := {| tx := dec 446448 3; ty := - dec 125157 3;
                                tz := dec 542060 3;
                                rx := dec 1502 4; ry := dec 2470 4; rz := dec 8421 4;
                                s := - dec 204894 4 |} |});
    ("Tokyo", {| name := "Tokyo"; ellipsoid := "Bessel1841";
                 toWGS84 := shift (- #148) #507 #685 |});
    ("Pulkovo1942", {| name := "Pulkovo 1942"; ellipsoid := "Krassovsky1940";
                       toWGS84 := {| tx := dec 2392 2; ty := - dec 14127 2;
                                     tz := - dec 809 1;
                                     rx := #0; ry := dec 35 2; rz := dec 82 2;
                                     s := - dec 12 2 |} |});
    ("HD72", {| name := "HD72"; ellipsoid := "GRS67";
                toWGS84 := shift (dec 5217 2) (- dec 7182 2) (- dec 149 1) |}) ].

(** [DATUMS] is an object literal, so [DATUMS[key]] also finds what the
    object inherits from [Object.prototype]: a function or object, truthy,
    with neither an [ellipsoid] nor a [toWGS84] property. *)
Definition objectPrototype : list string :=
  [ "constructor"; "toString"; "toLocaleString"; "valueOf"; "hasOwnProperty";
    "isPrototypeOf"; "propertyIsEnumerable"; "__proto__";
    "__defineGetter__"; "__defineSetter__"; "__lookupGetter__"; "__lookupSetter__" ].

Inductive DatumRef : Type :=
  | Undefined
  | Own (d : Datum)
  | Inherited.

(** [DATUMS[key]] *)
Definition DATUMS_at (key : string) : DatumRef :=
  match own DATUMS key with
  | Some d => Own d
  | None => if existsb (String.eqb key) objectPrototype then Inherited else Undefined
  end.

Definition truthy (r : DatumRef) : bool :=
  match r with
  | Undefined => false
  | _ => true
  end.

(** [r.ellipsoid] and [r.toWGS84]; [None] is [undefined]. *)
Definition ref_ellipsoid (r : DatumRef) : option string :=
  match r with
  | Own d => Some (ellipsoid d)
  | _ => None
  end.

Definition ref_toWGS84 (r : DatumRef) : option HelmertParams :=
  match r with
  | Own d => Some (toWGS84 d)
  | _ => None
  end.

(** [DATUMS[name] || null]; [Undefined] stands for [null] here. *)
Definition getDatum (name : string) : DatumRef := DATUMS_at name.

Definition negateParams (params : HelmertParams) : HelmertParams :=
  {| tx := - tx params; ty := - ty params; tz := - tz params;
     rx := - rx params; ry := - ry params; rz := - rz params;
     s := - s params |}.

(** What [getTransformationParams] returns: [null], a parameter object
    (or [undefined], read from an inherited member), or the two-step object
    [{viaWGS84: true, toWGS84, fromWGS84}]. *)
Inductive TransParams : Type :=
  | Null
  | Direct (params : option HelmertParams)
  | ViaWGS84 (toWGS84 : option HelmertParams) (fromWGS84 : HelmertParams).

Definition getTransformationParams (fromDatum toDatum : string) : result TransParams :=
  if String.eqb fromDatum toDatum then Ok (Direct (Some zeroParams))
  else
    let source := getDatum fromDatum in
    let target := getDatum toDatum in
    if negb (truthy source) || negb (truthy target) then Ok Null
    else if String.eqb toDatum "WGS84" then Ok (Direct (ref_toWGS84 source))
    else if String.eqb fromDatum "WGS84" then
      match ref_toWGS84 target with
      | Some params => Ok (Direct (Some (negateParams params)))
      | None => Throw TypeError
      end
    else
      match ref_toWGS84 target with
      | Some params => Ok (ViaWGS84 (ref_toWGS84 source) (negateParams params))
      | None => Throw TypeError
      end.

(** *** Degrees and radians *)

Definition DEG2RAD : T := Math_PI / #180.
Definition RAD2DEG : T := #180 / Math_PI.
Definition ARCSEC2RAD : T := Math_PI / (#180 * #3600).

Definition toRadians (degrees : T) : T := degrees * DEG2RAD.
Definition toDegrees (radians : T) : T := radians * RAD2DEG.

(** *** Geographic <-> geocentric *)

Record XYZ : Type := { x : T; y : T; z : T }.
Record LatLonH : Type := { lat : T; lon : T; h : T }.

Definition geographicToGeocentric (lat lon h : T) (ellipsoid : Ellipsoid) : XYZ :=
  let params := getEllipsoidParams ellipsoid in
  let phi := toRadians lat in
  let lambda := toRadians lon in
  let sinPhi := Math_sin phi in
  let cosPhi := Math_cos phi in
  let sinLambda := Math_sin lambda in
  let cosLambda := Math_cos lambda in
  let N := a params / Math_sqrt (#1 - e2 params * sinPhi * sinPhi) in
  let x := (N + h) * cosPhi * cosLambda in
  let y := (N + h) * cosPhi * sinLambda in
  let z := (N * (#1 - e2 params) + h) * sinPhi in
  {| x := x; y := y; z := z |}.

(** The refinement loop [for (let i = 0; i < 10; i++)]: [n] counts the
    rounds that remain. *)
Fixpoint refineLatitude (n : nat) (a e2 z p phi : T) : T :=
  match n with
  | O => phi
  | S n' =>
    let sinPhi := Math_sin phi in
    let N := a / Math_sqrt (#1 - e2 * sinPhi * sinPhi) in
    let newPhi := Math_atan2 (z + e2 * N * sinPhi) p in
    if Math_abs (newPhi - phi) <? dec 1 12 then phi
    else refineLatitude n' a e2 z p newPhi
  end.

Definition geocentricToGeographic (x y z : T) (ellipsoid : Ellipsoid) : LatLonH :=
  let params := getEllipsoidParams ellipsoid in
  let a := a params in
  let b := b params in
  let e2 := e2 params in
  let ep2 := ep2 params in
  let lambda := Math_atan2 y x in
  let p := Math_sqrt (x * x + y * y) in
  let theta := Math_atan2 (z * a) (p * b) in
  let phi0 := Math_atan2
                (z + ep2 * b * Math_pow (Math_sin theta) #3)
                (p - e2 * a * Math_pow (Math_cos theta) #3) in
  let phi := refineLatitude 10 a e2 z p phi0 in
  let sinPhi := Math_sin phi in
  let cosPhi := Math_cos phi in
  let N := a / Math_sqrt (#1 - e2 * sinPhi * sinPhi) in
  let h := if Math_abs cosPhi >? dec 1 10
           then p / cosPhi - N
           else Math_abs z / Math_abs sinPhi - N * (#1 - e2) in
  {| lat := toDegrees phi; lon := toDegrees lambda; h := h |}.

(** *** Helmert 7-parameter transformation *)

Definition helmertTransformation (xyz : XYZ) (params : HelmertParams) : XYZ :=
  let '{| x := x; y := y; z := z |} := xyz in
  let '{| tx := tx; ty := ty; tz := tz; rx := rx; ry := ry; rz := rz; s := s |} := params in
  let rxRad := rx * ARCSEC2RAD in
  let ryRad := ry * ARCSEC2RAD in
  let rzRad := rz * ARCSEC2RAD in
  let scale := #1 + s * dec 1 6 in
  let xp := tx + scale * (x - rzRad * y + ryRad * z) in
  let yp := ty + scale * (rzRad * x + y - rxRad * z) in
  let zp := tz + scale * (- ryRad * x + rxRad * y + z) in
  {| x := xp; y := yp; z := zp |}.

Definition inverseHelmertTransformation (xyz : XYZ) (params : HelmertParams) : XYZ :=
  let inverseParams :=
    {| tx := - tx params; ty := - ty params; tz := - tz params;
       rx := - rx params; ry := - ry params; rz := - rz params;
       s := - s params |} in
  helmertTransformation xyz inverseParams.

(** *** Vincenty inverse geodesic *)

Record GeodesicResult : Type := {
  distance : T;
  azimuth12 : T;
  azimuth21 : T
}.

(** The variables the loop body assigns; [lambda] is the value after the
    update and [iterLimit] the counter when the loop is left. *)
Record LoopVars : Type := {
  sinSigma : T;
  cosSigma : T;
  sigma : T;
  sinAlpha : T;
  cos2Alpha : T;
  cos2SigmaM : T;
  lambda : T;
  iterLimit : nat
}.

(** How the [do ... while] is left: by the [return] in its body
    ([sinSigma === 0]), or through its condition. *)
Inductive LoopExit : Type :=
  | Coincident
  | Done (v : LoopVars).

Section VincentyLoop.

Variables (f L sinU1 cosU1 sinU2 cosU2 : T).

(** One execution of the loop body from [lambda], with [limit] the
    current counter; [None] is the [return] inside the body. *)
Definition vincentyBody (limit : nat) (lambda : T) : option LoopVars :=
  let sinLambda := Math_sin lambda in
  let cosLambda := Math_cos lambda in
  let sinSigma := Math_sqrt
                    (Math_pow (cosU2 * sinLambda) #2 +
                     Math_pow (cosU1 * sinU2 - sinU1 * cosU2 * cosLambda) #2) in
  if sinSigma === #0 then None
  else
    let cosSigma := sinU1 * sinU2 + cosU1 * cosU2 * cosLambda in
    let sigma := Math_atan2 sinSigma cosSigma in
    let sinAlpha := cosU1 * cosU2 * sinLambda / sinSigma in
    let cos2Alpha := #1 - sinAlpha * sinAlpha in
    let cos2SigmaM := if cos2Alpha !== #0
                      then cosSigma - #2 * sinU1 * sinU2 / cos2Alpha
                      else #0 in
    let C := f / #16 * cos2Alpha * (#4 + f * (#4 - #3 * cos2Alpha)) in
    let lambda' := L + (#1 - C) * f * sinAlpha *
                     (sigma + C * sinSigma *
                        (cos2SigmaM + C * cosSigma *
                           (- #1 + #2 * cos2SigmaM * cos2SigmaM))) in
    Some {| sinSigma := sinSigma; cosSigma := cosSigma; sigma := sigma;
            sinAlpha := sinAlpha; cos2Alpha := cos2Alpha;
            cos2SigmaM := cos2SigmaM; lambda := lambda'; iterLimit := limit |}.

(** The loop condition's first conjunct, [lambdaP] being the value
    the body started from. *)
Definition notConverged (lambdaP lambda : T) : bool :=
  Math_abs (lambda - lambdaP) >? dec 1 12.

Definition withLimit (v : LoopVars) (limit : nat) : LoopVars :=
  {| sinSigma := sinSigma v; cosSigma := cosSigma v; sigma := sigma v;
     sinAlpha := sinAlpha v; cos2Alpha := cos2Alpha v;
     cos2SigmaM := cos2SigmaM v; lambda := lambda v; iterLimit := limit |}.

(** [do { body } while (|lambda - lambdaP| > 1e-12 && --iterLimit > 0)],
    entered with [iterLimit = S n].  The counter is decremented only
    when the first conjunct holds. *)
Fixpoint vincentyLoop (n : nat) (lambda0 : T) : LoopExit :=
  match vincentyBody (S n) lambda0 with
  | None => Coincident
  | Some v =>
    if notConverged lambda0 (lambda v) then
      match n with
      | O => Done (withLimit v O)
      | S n' => vincentyLoop n' (lambda v)
      end
    else Done v
  end.

End VincentyLoop.

(** [null] is [None].  The [console.warn] before [return null] is not
    modelled.  The source's default for [ellipsoid] is [ELLIPSOIDS.WGS84]. *)
Definition vincentyDistance (lat1 lon1 lat2 lon2 : T) (ellipsoid : Ellipsoid)
    : option GeodesicResult :=
  let params := getEllipsoidParams ellipsoid in
  let a := a params in
  let b := b params in
  let f := f params in
  let phi1 := toRadians lat1 in
  let phi2 := toRadians lat2 in
  let L := toRadians (lon2 - lon1) in
  let U1 := Math_atan ((#1 - f) * Math_tan phi1) in
  let U2 := Math_atan ((#1 - f) * Math_tan phi2) in
  let sinU1 := Math_sin U1 in
  let cosU1 := Math_cos U1 in
  let sinU2 := Math_sin U2 in
  let cosU2 := Math_cos U2 in
  match vincentyLoop f L sinU1 cosU1 sinU2 cosU2 99 L with
  | Coincident => Some {| distance := #0; azimuth12 := #0; azimuth21 := #0 |}
  | Done v =>
    if Nat.eqb (iterLimit v) 0 then None
    else
      let sinSigma := sinSigma v in
      let cosSigma := cosSigma v in
      let sigma := sigma v in
      let cos2Alpha := cos2Alpha v in
      let cos2SigmaM := cos2SigmaM v in
      let lambda := lambda v in
      let uSq := cos2Alpha * (a * a - b * b) / (b * b) in
      let A := #1 + uSq / #16384 *
                 (#4096 + uSq * (- #768 + uSq * (#320 - #175 * uSq))) in
      let B := uSq / #1024 * (#256 + uSq * (- #128 + uSq * (#74 - #47 * uSq))) in
      let deltaSigma :=
        B * sinSigma *
          (cos2SigmaM + B / #4 *
             (cosSigma * (- #1 + #2 * cos2SigmaM * cos2SigmaM) -
              B / #6 * cos2SigmaM * (- #3 + #4 * sinSigma * sinSigma) *
                (- #3 + #4 * cos2SigmaM * cos2SigmaM))) in
      let distance := b * A * (sigma - deltaSigma) in
      let azimuth12 := Math_atan2
                         (cosU2 * Math_sin lambda)
                         (cosU1 * sinU2 - sinU1 * cosU2 * Math_cos lambda) in
      let azimuth21 := Math_atan2
                         (cosU1 * Math_sin lambda)
                         (- sinU1 * cosU2 + cosU1 * sinU2 * Math_cos lambda) in
      Some {| distance := distance;
              azimuth12 := toDegrees azimuth12;
              azimuth21 := toDegrees azimuth21 |}
  end.

End Core.

Arguments Ellipsoid T : clear implicits.
Arguments EllipsoidParams T : clear implicits.
Arguments HelmertParams T : clear implicits.
Arguments Datum T : clear implicits.
Arguments DatumRef T : clear implicits.
Arguments TransParams T : clear implicits.
Arguments XYZ T : clear implicits.
Arguments LatLonH T : clear implicits.
Arguments GeodesicResult T : clear implicits.
Arguments LoopVars T : clear implicits.
Arguments LoopExit T : clear implicits.

(** ** The datum pipeline, on binary64 *)

Section Pipeline.

Context {M : MathLib}.
Local Open Scope js_scope.

(** The [coords] argument: an object that may carry [lat], [lon], [h]
    (geographic) or [x], [y], [z] (geocentric); [None] is a property
    that is absent or [undefined]. *)
Record Coords : Type := {
  c_lat : option float;
  c_lon : option float;
  c_h : option float;
  c_x : option float;
  c_y : option float;
  c_z : option float
}.

(** [undefined] in arithmetic is NaN. *)
Definition toNumber (v : option float) : float :=
  match v with
  | Some n => n
  | None => PrimFloat.nan
  end.

(** [v || 0]: zero replaces [undefined], NaN and both zeros. *)
Definition orZero (v : option float) : float :=
  match v with
  | Some n => if PrimFloat.is_nan n || F.is_zero n then #0 else n
  | None => #0
  end.

Definition ofXYZ (p : XYZ float) : Coords :=
  {| c_lat := None; c_lon := None; c_h := None;
     c_x := Some (x p); c_y := Some (y p); c_z := Some (z p) |}.

Definition ofLatLonH (g : LatLonH float) : Coords :=
  {| c_lat := Some (lat g); c_lon := Some (lon g); c_h := Some (h g);
     c_x := None; c_y := None; c_z := None |}.

(** A call with an argument that may be [undefined]: reading
    [ellipsoid.a], or destructuring [params], throws a [TypeError]. *)
Definition withDefined {A B : Type} (v : option A) (k : A -> B) : result B :=
  match v with
  | Some a => Ok (k a)
  | None => Throw TypeError
  end.

(** [ELLIPSOIDS[datumObj.ellipsoid]] *)
Definition ellipsoidOf (r : DatumRef float) : option (Ellipsoid float) :=
  match ref_ellipsoid r with
  | Some key => own ELLIPSOIDS key
  | None => None
  end.

(** [inputType] is [None] when the argument is omitted and the default
    ['geographic'] applies. *)
Definition transformDatum (coords : Coords) (fromDatum toDatum : string)
    (inputType : option string) : result Coords :=
  let inputType := match inputType with Some t => t | None => "geographic" end in
  if String.eqb fromDatum toDatum then Ok coords
  else
    let fromDatumObj := DATUMS_at fromDatum in
    let toDatumObj := DATUMS_at toDatum in
    if negb (truthy fromDatumObj) || negb (truthy toDatumObj) then
      Throw (Error ("Unknown datum: " ++ fromDatum ++ " or " ++ toDatum))
    else
      let fromEllipsoid := ellipsoidOf fromDatumObj in
      let toEllipsoid := ellipsoidOf toDatumObj in
      transParams <- getTransformationParams fromDatum toDatum ;;
      xyz <- (if String.eqb inputType "geographic" then
                withDefined fromEllipsoid
                  (geographicToGeocentric (toNumber (c_lat coords))
                     (toNumber (c_lon coords)) (orZero (c_h coords)))
              else
                Ok {| x := toNumber (c_x coords); y := toNumber (c_y coords);
                      z := toNumber (c_z coords) |}) ;;
      transformedXYZ <-
        match transParams with
        | Null => Throw TypeError
        | Direct None => Throw TypeError
        | ViaWGS84 toWGS84 fromWGS84 =>
          toWGS84 <- withDefined toWGS84 (helmertTransformation xyz) ;;
          Ok (helmertTransformation toWGS84 fromWGS84)
        | Direct (Some params) => Ok (helmertTransformation xyz params)
        end ;;
      if String.eqb inputType "geographic" then
        g <- withDefined toEllipsoid
               (geocentricToGeographic (x transformedXYZ) (y transformedXYZ)
                  (z transformedXYZ)) ;;
        Ok (ofLatLonH g)
      else Ok (ofXYZ transformedXYZ).

End Pipeline.


(** ** A reference [Math] library

    One library for [Math.sin], [Math.cos], [Math.tan], [Math.atan],
    [Math.atan2] and [Math.pow]: the exact values ECMAScript prescribes at
    zero arguments, and approximations (a few units in the last place) at
    the other finite arguments.  It makes the binary64 model executable. *)

Module RefMath.

Local Open Scope float_scope.

(** The nearest integer, for [|x| < 2^51]. *)
Definition rint (x : float) : float := (x + 0x1.8p+52) - 0x1.8p+52.

(** pi/2 in two pieces: the leading 33 bits and the rest. *)
Definition PIO2_hi : float := 0x1.921fb544p+0.
Definition PIO2_lo : float := 0x1.0b4611a626331p-34.

Fixpoint factorial (n : nat) : Z :=
  match n with
  | O => 1
  | S m => Z.of_nat n * factorial m
  end.

(** [1/n!] *)
Definition rfact (n : nat) : float := 1 / F.ofZ (factorial n).

(** Taylor polynomials on [[-pi/4, pi/4]]. *)
Definition kernel_sin (r : float) : float :=
  let z := r * r in
  r + r * z * (- rfact 3 + z * (rfact 5 + z * (- rfact 7 + z * (rfact 9 +
        z * (- rfact 11 + z * (rfact 13 + z * (- rfact 15 + z * rfact 17))))))).

Definition kernel_cos (r : float) : float :=
  let z := r * r in
  1 - z * (rfact 2 - z * (rfact 4 - z * (rfact 6 - z * (rfact 8 -
        z * (rfact 10 - z * (rfact 12 - z * (rfact 14 - z * (rfact 16 - z * rfact 18)))))))).

(** The quadrant [n mod 4] in [{-2,...,2}] and the reduced argument. *)
Definition reduce (x : float) : float * float :=
  let n := rint (x * (2 / F.PI)) in
  let r := (x - n * PIO2_hi) - n * PIO2_lo in
  (n - 4 * rint (n / 4), r).

Definition sin (x : float) : float :=
  if PrimFloat.eqb x 0 then x
  else
    let '(q, r) := reduce x in
    if PrimFloat.eqb q 0 then kernel_sin r
    else if PrimFloat.eqb q 1 then kernel_cos r
    else if PrimFloat.eqb q (-1) then - kernel_cos r
    else - kernel_sin r.

Definition cos (x : float) : float :=
  let '(q, r) := reduce x in
  if PrimFloat.eqb q 0 then kernel_cos r
  else if PrimFloat.eqb q 1 then - kernel_sin r
  else if PrimFloat.eqb q (-1) then kernel_sin r
  else - kernel_cos r.

Definition tan (x : float) : float := sin x / cos x.

(** [atan] on [[0, 1]]: three halvings of the angle, then the series. *)
Definition halve (x : float) : float := x / (1 + PrimFloat.sqrt (1 + x * x)).

Definition atan_series (x : float) : float :=
  let z := x * x in
  x * (1 - z * (1 / 3 - z * (1 / 5 - z * (1 / 7 - z * (1 / 9 - z * (1 / 11 -
       z * (1 / 13 - z * (1 / 15 - z * (1 / 17 - z * (1 / 19)))))))))).

Definition atan_unit (x : float) : float :=
  8 * atan_series (halve (halve (halve x))).

Definition atan (x : float) : float :=
  if PrimFloat.eqb x 0 then x
  else if PrimFloat.is_nan x then x
  else
    let ax := PrimFloat.abs x in
    let r := if PrimFloat.leb ax 1 then atan_unit ax
             else F.PI / 2 - atan_unit (1 / ax) in
    if PrimFloat.ltb x 0 then - r else r.

Definition negative (x : float) : bool := PrimFloat.ltb (1 / x) 0.

Definition atan2 (y x : float) : float :=
  if PrimFloat.is_nan x || PrimFloat.is_nan y then PrimFloat.nan
  else if PrimFloat.eqb x 0 then
    if PrimFloat.eqb y 0 then
      (if negative x then (if negative y then - F.PI else F.PI) else y)
    else if PrimFloat.ltb y 0 then - (F.PI / 2) else F.PI / 2
  else if PrimFloat.ltb 0 x then atan (y / x)
  else if negative y || PrimFloat.ltb y 0 then atan (y / x) - F.PI
  else atan (y / x) + F.PI.

(** [Math.pow] at the exponents the source raises to. *)
Definition pow (x y : float) : float :=
  if PrimFloat.eqb y 2 then x * x
  else if PrimFloat.eqb y 3 then x * x * x
  else if PrimFloat.eqb y 1.5 then x * PrimFloat.sqrt x
  else PrimFloat.nan.

Definition lib : MathLib :=
  {| lib_sin := sin; lib_cos := cos; lib_tan := tan;
     lib_atan := atan; lib_atan2 := atan2; lib_pow := pow |}.

End RefMath.

(** ** Notions used in the statements *)

(** [returns_number v r]: [r] is the binary64 value [v] bit for bit,
    except that a zero may come back as the zero of either sign. *)
Definition returns_number (v r : float) : Prop :=
  if F.is_zero v then F.is_zero r = true else r = v.

(** One of the two zeros. *)
Definition zero_like (v : float) : Prop := exists sg, Prim2SF v = S754_zero sg.

(** [same v w]: [v] is finite and [w] is [v], up to the sign of a zero. *)
Definition same (v w : float) : Prop :=
  match Prim2SF v with
  | S754_zero _ => zero_like w
  | S754_finite _ _ _ => w = v
  | _ => False
  end.

(** All seven parameters are zeros (of either sign). *)
Definition zeroish (p : HelmertParams float) : Prop :=
  F.is_zero (tx p) = true /\ F.is_zero (ty p) = true /\ F.is_zero (tz p) = true /\
  F.is_zero (rx p) = true /\ F.is_zero (ry p) = true /\ F.is_zero (rz p) = true /\
  F.is_zero (s p) = true.

(** The mode the pipeline runs in: anything but ['geographic'] takes the
    geocentric branches. *)
Definition geographicMode (inputType : option string) : bool :=
  match inputType with
  | None => true
  | Some t => String.eqb t "geographic"
  end.


Definition geocentricCoords (px py pz : float) : Coords :=
  {| c_lat := None; c_lon := None; c_h := None;
     c_x := Some px; c_y := Some py; c_z := Some pz |}.

Definition geographicCoords (la lo : float) (height : option float) : Coords :=
  {| c_lat := Some la; c_lon := Some lo; c_h := height;
     c_x := None; c_y := None; c_z := None |}.

(** [apply(invert(P), apply(P, X))] *)
Definition helmertRoundTrip {T : Type} {num : JSNum T}
    (P : HelmertParams T) (X : XYZ T) : XYZ T :=
  inverseHelmertTransformation (helmertTransformation X P) P.

(** The parameter sets stored in the datum catalog. *)
Definition catalogParams {T : Type} {num : JSNum T} : list (HelmertParams T) :=
  map (fun entry => toWGS84 (snd entry)) DATUMS.

(** Rotations and scale are zero. *)
Definition translationOnly (P : HelmertParams R) : Prop :=
  rx P = 0%R /\ ry P = 0%R /\ rz P = 0%R /\ s P = 0%R.

(** [|u - v| <= tol] on binary64. *)
Definition within (tol u v : float) : bool :=
  PrimFloat.leb (PrimFloat.abs (PrimFloat.sub u v)) tol.

Section Resolution.

Context {M : MathLib}.

(** The name is a key of the datum catalog. *)
Definition registered (key : string) : bool :=
  match own (DATUMS (T := float)) key with
  | Some _ => true
  | None => false
  end.

(** The name is a catalog datum whose ellipsoid the ellipsoid catalog has. *)
Definition resolves (key : string) : bool :=
  match ellipsoidOf (DATUMS_at key) with
  | Some _ => true
  | None => false
  end.

End Resolution.

(** *** The geographic round trip *)

(** [toGeographic(toGeocentric(lat, lon, h, E), E)] *)
Definition roundTrip {T : Type} {num : JSNum T}
    (la lo height : T) (ellipsoid : Ellipsoid T) : LatLonH T :=
  let p := geographicToGeocentric la lo height ellipsoid in
  geocentricToGeographic (x p) (y p) (z p) ellipsoid.

Section RoundTripGrid.

Context {M : MathLib}.






End RoundTripGrid.

(** *** The Vincenty iteration of a call *)

Section Iteration.

Context {T : Type} {num : JSNum T}.
Local Open Scope js_scope.

(** The quantities a call computes before its loop: the flattening, the
    longitude difference [L] and the sines and cosines of the two reduced
    latitudes. *)
Record Reduced : Type := {
  red_f : T;
  red_L : T;
  red_sinU1 : T;
  red_cosU1 : T;
  red_sinU2 : T;
  red_cosU2 : T
}.

Definition reducedLatitude (ellipsoid : Ellipsoid T) (lat : T) : T :=
  Math_atan ((#1 - f (getEllipsoidParams ellipsoid)) * Math_tan (toRadians lat)).

Definition reduced (lat1 lon1 lat2 lon2 : T) (ellipsoid : Ellipsoid T) : Reduced :=
  let U1 := reducedLatitude ellipsoid lat1 in
  let U2 := reducedLatitude ellipsoid lat2 in
  {| red_f := f (getEllipsoidParams ellipsoid);
     red_L := toRadians (lon2 - lon1);
     red_sinU1 := Math_sin U1; red_cosU1 := Math_cos U1;
     red_sinU2 := Math_sin U2; red_cosU2 := Math_cos U2 |}.

(** The loop body of the call, and the loop from the counter [S n]. *)
Definition bodyOf (q : Reduced) : nat -> T -> option (LoopVars T) :=
  vincentyBody (red_f q) (red_L q) (red_sinU1 q) (red_cosU1 q) (red_sinU2 q) (red_cosU2 q).

Definition loopOf (q : Reduced) : nat -> T -> LoopExit T :=
  vincentyLoop (red_f q) (red_L q) (red_sinU1 q) (red_cosU1 q) (red_sinU2 q) (red_cosU2 q).

(** The recurrence on [lambda]: [nextLambda] is the value the body
    assigns, and [lambdaAt n] the value after [n] rounds from [L]. *)
Definition nextLambda (q : Reduced) (lambda0 : T) : T :=
  match bodyOf q 0 lambda0 with
  | Some v => lambda v
  | None => lambda0
  end.

Definition lambdaAt (q : Reduced) (n : nat) : T :=
  Nat.iter n (nextLambda q) (red_L q).

(** The round from [lambda0] finds [sinSigma === 0]. *)
Definition coincidentAt (q : Reduced) (lambda0 : T) : bool :=
  match bodyOf q 0 lambda0 with
  | Some _ => false
  | None => true
  end.

(** Round [n] (counted from 0) runs to its end and leaves
    [|lambda - lambdaP| > 1e-12]. *)
Definition stillMoving (q : Reduced) (n : nat) : bool :=
  negb (coincidentAt q (lambdaAt q n)) &&
  notConverged (lambdaAt q n) (lambdaAt q (S n)).

(** Each of the next [rounds] rounds from [lambda0] is still moving. *)
Fixpoint movingFrom (q : Reduced) (rounds : nat) (lambda0 : T) : bool :=
  match rounds with
  | O => true
  | S k =>
    negb (coincidentAt q lambda0) &&
    notConverged lambda0 (nextLambda q lambda0) &&
    movingFrom q k (nextLambda q lambda0)
  end.

Definition zeroResult : GeodesicResult T :=
  {| distance := #0; azimuth12 := #0; azimuth21 := #0 |}.

End Iteration.

Arguments Reduced T : clear implicits.

(** The exact results ECMAScript prescribes for the library at zero:
    [Math.sin(+0)] is [+0], [Math.cos(+0)] is [1], and [Math.pow] of
    either zero to the exponent 2 is [+0]. *)
Record ExactAtZero (M : MathLib) : Prop := {
  sin_zero : lib_sin 0%float = 0%float;
  cos_zero : lib_cos 0%float = 1%float;
  pow_zero_two : forall v : float, F.is_zero v = true -> lib_pow v 2%float = 0%float
}.

(** The Taylor polynomials of sine and cosine, of degree 11 and 10. *)
Definition sinP (u : R) : R :=
  (u - u^3/6 + u^5/120 - u^7/5040 + u^9/362880 - u^11/39916800)%R.

Definition cosP (u : R) : R :=
  (1 - u^2/2 + u^4/24 - u^6/720 + u^8/40320 - u^10/3628800)%R.

(** ** The rest of the modules

    The functions of [ellipsoids.js], [datums.js], [projections.js], the
    geoid module, the transformation module and the transformation panel
    that the pipeline above does not call. *)

(** *** Further operations on numbers *)

(** [>=], [Math.floor] and the remainder [%]. *)
Class JSNumExt (T : Type) : Type := {
  gte : T -> T -> bool;
  Math_floor : T -> T;
  remainder : T -> T -> T
}.

Notation "x >=? y" := (gte x y) (at level 70, no associativity) : js_scope.

Module FloatExt.

(** [Math.floor]: a value with a non-negative exponent is an integer and
    is returned as it is, as are the zeros, the infinities and NaN;
    otherwise the integer part lies below [2^53] and is exact. *)
Definition floor (v : float) : float :=
  match Prim2SF v with
  | S754_finite sg m e =>
    if (0 <=? e)%Z then v
    else
      let q := Z.shiftr (Zpos m) (- e) in
      if sg then
        (if (Z.shiftl q (- e) =? Zpos m)%Z then F.ofZ (- q) else F.ofZ (- q - 1))
      else F.ofZ q
  | _ => v
  end.

(** [v % w]: NaN for a NaN operand, an infinite dividend or a zero divisor;
    the dividend for a zero dividend or an infinite divisor; otherwise the
    exact remainder of the truncated division, with the sign of [v]. *)
Definition rem (v w : float) : float :=
  match Prim2SF v, Prim2SF w with
  | S754_nan, _ => PrimFloat.nan
  | _, S754_nan => PrimFloat.nan
  | S754_infinity _, _ => PrimFloat.nan
  | _, S754_zero _ => PrimFloat.nan
  | S754_zero _, _ => v
  | _, S754_infinity _ => v
  | S754_finite sv mv ev, S754_finite _ mw ew =>
    let emin := Z.min ev ew in
    let r := ((Zpos mv * 2 ^ (ev - emin)) mod (Zpos mw * 2 ^ (ew - emin)))%Z in
    let u := Z.ldexp (F.ofZ r) emin in
    if sv then PrimFloat.opp u else u
  end.

End FloatExt.

#[export] Instance FloatNumExt : JSNumExt float := {|
  gte := fun v w => PrimFloat.leb w v;
  Math_floor := FloatExt.floor;
  remainder := FloatExt.rem
|}.

Module RealExt.

Definition geb (u v : R) : bool := if Rge_dec u v then true else false.

Definition floor (u : R) : R := IZR (Int_part u).

(** The integer part towards zero. *)
Definition trunc (u : R) : R :=
  if Rle_dec 0 u then IZR (Int_part u) else (- IZR (Int_part (- u)))%R.

Definition rem (u v : R) : R := (u - v * trunc (u / v))%R.

End RealExt.

#[export] Instance RealNumExt : JSNumExt R := {|
  gte := RealExt.geb;
  Math_floor := RealExt.floor;
  remainder := RealExt.rem
|}.

(** An integer-valued number in a template literal: its decimal digits. *)
Definition showInt (n : Z) : string := NilZero.string_of_int (Z.to_int n).

(** *** ellipsoids.js, datums.js: the other exports *)

Section Catalogs.

Context {T : Type} {num : JSNum T}.
Local Open Scope js_scope.

Definition radiusOfCurvatureN (lat : T) (ellipsoid : Ellipsoid T) : T :=
  let params := getEllipsoidParams ellipsoid in
  let sinLat := Math_sin lat in
  a params / Math_sqrt (#1 - e2 params * sinLat * sinLat).

Definition radiusOfCurvatureM (lat : T) (ellipsoid : Ellipsoid T) : T :=
  let params := getEllipsoidParams ellipsoid in
  let sinLat := Math_sin lat in
  let W := Math_sqrt (#1 - e2 params * sinLat * sinLat) in
  a params * (#1 - e2 params) / (W * W * W).

Definition meanRadius (lat : T) (ellipsoid : Ellipsoid T) : T :=
  let M := radiusOfCurvatureM lat ellipsoid in
  let N := radiusOfCurvatureN lat ellipsoid in
  Math_sqrt (M * N).

(** [ELLIPSOIDS[datum.ellipsoid] || null]; [None] is [null].  A datum
    without an [ellipsoid] property reads [ELLIPSOIDS[undefined]], which
    the catalog lacks. *)
Definition getEllipsoidForDatum (datumName : string) : option (Ellipsoid T) :=
  let datum := getDatum datumName in
  if negb (truthy datum) then None
  else
    match ref_ellipsoid datum with
    | Some key => own ELLIPSOIDS key
    | None => None
    end.

End Catalogs.

(** *** The transformation module: the other exports *)

Section Utilities.

Context {T : Type} {num : JSNum T} {ext : JSNumExt T}.
Local Open Scope js_scope.

Record DMS : Type := {
  degrees : T;
  minutes : T;
  seconds : T;
  direction : string
}.

(** [isLatitude] is [None] when the argument is omitted and the default
    [true] applies. *)
Definition decimalToDMS (decimal : T) (isLatitude : option bool) : DMS :=
  let isLatitude := match isLatitude with Some v => v | None => true end in
  let absolute := Math_abs decimal in
  let degrees := Math_floor absolute in
  let minutesFloat := (absolute - degrees) * #60 in
  let minutes := Math_floor minutesFloat in
  let seconds := (minutesFloat - minutes) * #60 in
  let direction :=
    if isLatitude then (if decimal >=? #0 then "N" else "S")
    else (if decimal >=? #0 then "E" else "W") in
  {| degrees := degrees; minutes := minutes; seconds := seconds;
     direction := direction |}.

Definition dmsToDecimal (degrees minutes seconds : T) (direction : string) : T :=
  let decimal := Math_abs degrees + minutes / #60 + seconds / #3600 in
  if String.eqb direction "S" || String.eqb direction "W" then - decimal
  else decimal.

Record Shifts : Type := { dx : T; dy : T; dz : T }.

Definition molodenskyTransformation (lat lon h : T)
    (fromEllipsoid toEllipsoid : Ellipsoid T) (shifts : Shifts) : LatLonH T :=
  let phi := toRadians lat in
  let lambda := toRadians lon in
  let fromParams := getEllipsoidParams fromEllipsoid in
  let toParams := getEllipsoidParams toEllipsoid in
  let da := a toParams - a fromParams in
  let df := f toParams - f fromParams in
  let '{| dx := dx; dy := dy; dz := dz |} := shifts in
  let sinPhi := Math_sin phi in
  let cosPhi := Math_cos phi in
  let sinLambda := Math_sin lambda in
  let cosLambda := Math_cos lambda in
  let sin2Phi := Math_sin (#2 * phi) in
  let a := a fromParams in
  let f := f fromParams in
  let e2 := e2 fromParams in
  let Rm := a * (#1 - e2) / Math_pow (#1 - e2 * sinPhi * sinPhi) (dec 15 1) in
  let Rn := a / Math_sqrt (#1 - e2 * sinPhi * sinPhi) in
  let dPhi := ((- dx * sinPhi * cosLambda - dy * sinPhi * sinLambda + dz * cosPhi)
               + da * (Rn * e2 * sinPhi * cosPhi) / a
               + df * (Rm / (#1 - f) + Rn * (#1 - f)) * sinPhi * cosPhi) / (Rm + h) in
  let dLambda := (- dx * sinLambda + dy * cosLambda) / ((Rn + h) * cosPhi) in
  let dh := dx * cosPhi * cosLambda + dy * cosPhi * sinLambda + dz * sinPhi
            - da * a / Rn + df * (#1 - f) * Rn * sinPhi * sinPhi in
  {| lat := lat + toDegrees dPhi; lon := lon + toDegrees dLambda; h := h + dh |}.

Definition ellipsoidalToOrthometric (ellipsoidalHeight geoidUndulation : T) : T :=
  ellipsoidalHeight - geoidUndulation.

Definition orthometricToEllipsoidal (orthometricHeight geoidUndulation : T) : T :=
  orthometricHeight + geoidUndulation.

(** The transformation module's own [getUTMZone]. *)
Definition getUTMZone (longitude : T) : T :=
  Math_floor ((longitude + #180) / #6) + #1.

End Utilities.

Arguments DMS T : clear implicits.
Arguments Shifts T : clear implicits.

(** [getUTMEPSG(zone, isNorth = true)], for an integer-valued [zone]. *)
Definition getUTMEPSG (zone : Z) (isNorth : option bool) : string :=
  let isNorth := match isNorth with Some v => v | None => true end in
  "EPSG:" ++ showInt (if isNorth then 32600 + zone else 32700 + zone).

(** The two definitions the UTM loop registers for a zone, north and
    south. *)
Definition utmDefs (zone : Z) : list (string * string) :=
  [ ("EPSG:" ++ showInt (32600 + zone),
     "+proj=utm +zone=" ++ showInt zone ++ " +datum=WGS84 +units=m +no_defs");
    ("EPSG:" ++ showInt (32700 + zone),
     "+proj=utm +zone=" ++ showInt zone ++ " +south +datum=WGS84 +units=m +no_defs") ].

(** The integers [lo, lo + 1, ..., lo + n - 1], the values of a counting loop. *)
Fixpoint countFrom (lo : Z) (n : nat) : list Z :=
  match n with
  | O => []
  | S k => lo :: countFrom (lo + 1) k
  end.

(** A Transverse Mercator definition of the Turkish zones. *)
Definition tmDef (lon_0 ellps : string) : string :=
  "+proj=tmerc +lat_0=0 +lon_0=" ++ lon_0 ++ " +k=1 +x_0=500000 +y_0=0 +ellps=" ++
  ellps ++ " +units=m +no_defs".

(** The coordinate systems the module registers with [proj4.defs] when it
    is loaded, in the order of the calls: name and definition. *)
Definition proj4Defs : list (string * string) :=
  [ ("EPSG:4326", "+proj=longlat +datum=WGS84 +no_defs");
    ("EPSG:3857", "+proj=merc +a=6378137 +b=6378137 +lat_ts=0 +lon_0=0 +x_0=0 +y_0=0 +k=1 +units=m +nadgrids=@null +no_defs");
    ("EPSG:4258", "+proj=longlat +ellps=GRS80 +no_defs") ] ++
  flat_map utmDefs (countFrom 1 60) ++
  [ ("ED50_TM30", tmDef "30" "intl");
    ("ED50_TM33", tmDef "33" "intl");
    ("ED50_TM36", tmDef "36" "intl");
    ("ED50_TM39", tmDef "39" "intl");
    ("ED50_TM42", tmDef "42" "intl");
    ("ED50_TM45", tmDef "45" "intl");
    ("TUREF_TM30", tmDef "30" "GRS80");
    ("TUREF_TM33", tmDef "33" "GRS80");
    ("TUREF_TM36", tmDef "36" "GRS80");
    ("TUREF_TM39", tmDef "39" "GRS80");
    ("TUREF_TM42", tmDef "42" "GRS80");
    ("TUREF_TM45", tmDef "45" "GRS80") ].

(** *** projections.js *)

Module Projections.

Section Generic.

Context {T : Type} {num : JSNum T} {ext : JSNumExt T}.
Local Open Scope js_scope.

Record Bounds : Type := { west : T; east : T }.

Record UTMZone : Type := {
  zone : T;
  centralMeridian : T;
  bounds : Bounds;
  proj4North : string;
  proj4South : string;
  epsgNorth : T;
  epsgSouth : T
}.

(** The object [generateUTMZones] assigns to [zones[zone]]. *)
Definition utmZone (zone : Z) : UTMZone :=
  let centralMeridian := - #183 + #zone * #6 in
  {| zone := #zone;
     centralMeridian := centralMeridian;
     bounds := {| west := centralMeridian - #3; east := centralMeridian + #3 |};
     proj4North := "+proj=utm +zone=" ++ showInt zone ++ " +datum=WGS84 +units=m +no_defs";
     proj4South := "+proj=utm +zone=" ++ showInt zone ++
                   " +south +datum=WGS84 +units=m +no_defs";
     epsgNorth := #32600 + #zone;
     epsgSouth := #32700 + #zone |}.

(** The object [zones], with the loop counter as the key. *)
Definition generateUTMZones : list (Z * UTMZone) :=
  map (fun zone => (zone, utmZone zone)) (countFrom 1 60).

(** [zones[n]] for a number [n]: the keys being integers, a number finds
    the entry whose key it equals. *)
Fixpoint zoneAt (zones : list (Z * UTMZone)) (n : T) : option UTMZone :=
  match zones with
  | [] => None
  | (k, v) :: rest => if #k === n then Some v else zoneAt rest n
  end.

Definition getUTMZone (longitude : T) : T :=
  let lon := remainder (remainder (longitude + #180) #360 + #360) #360 - #180 in
  Math_floor ((lon + #180) / #6) + #1.

Definition getUTMHemisphere (latitude : T) : string :=
  if latitude >=? #0 then "N" else "S".

(** [k0] is [None] when the argument is omitted and the default [0.9996]
    applies. *)
Definition calculateTMScaleFactor (latitude longitude centralMeridian : T)
    (k0 : option T) : T :=
  let k0 := match k0 with Some v => v | None => dec 9996 4 end in
  let dLon := longitude - centralMeridian in
  let cosLat := Math_cos latitude in
  let B := cosLat * Math_sin dLon in
  let k := k0 / Math_sqrt (#1 - B * B) in
  k.

End Generic.

(** [getUTMProj4(zone, isNorth = true, datum = 'WGS84')], for an
    integer-valued [zone]. *)
Definition getUTMProj4 (zone : Z) (isNorth : option bool) (datum : option string)
    : string :=
  let isNorth := match isNorth with Some v => v | None => true end in
  let datum := match datum with Some v => v | None => "WGS84" end in
  let ellipsoid := if String.eqb datum "WGS84" then "WGS84" else "GRS80" in
  let south := if isNorth then "" else "+south " in
  "+proj=utm +zone=" ++ showInt zone ++ " " ++ south ++ "+ellps=" ++ ellipsoid ++
  " +units=m +no_defs".

End Projections.

Arguments Projections.Bounds T : clear implicits.
Arguments Projections.UTMZone T : clear implicits.

(** *** The geoid module *)

Module Geoid.

Section Generic.

Context {T : Type} {num : JSNum T}.
Local Open Scope js_scope.

Definition approximateGeoidUndulation (lat lon : T) : T :=
  let phi := lat * Math_PI / #180 in
  let lambda := lon * Math_PI / #180 in
  let N := - dec 84 1 - #14 * Math_sin phi * Math_sin phi
           + #16 * Math_cos (#2 * lambda) * Math_cos phi * Math_cos phi
           - #10 * Math_sin (#3 * phi)
           + #8 * Math_cos (#4 * lambda) * Math_cos (#2 * phi) in
  N.

Definition turkeyGeoidUndulation (lat lon : T) : T :=
  let base := #35 in
  let latEffect := (lat - #39) * dec 5 1 in
  let lonEffect := (lon - #35) * dec 3 1 in
  base + latEffect + lonEffect.

End Generic.

End Geoid.

(** *** The transformation panel *)

(** The values of [PROJECTION_OPTIONS], the projections the panel offers. *)
Definition PROJECTION_OPTIONS : list string :=
  [ "UTM"; "WebMercator"; "TM30"; "TM33"; "TM36"; "TM39"; "TM42"; "TM45";
    "TUREF_TM30"; "TUREF_TM33"; "TUREF_TM36"; "TUREF_TM39"; "TUREF_TM42";
    "TUREF_TM45" ].

(** The name handed to [proj4] for a projection choice; [utmZone] is
    integer-valued. *)
Definition getProjectionCRS (projection : string) (utmZone : Z) (hemisphere datum : string)
    : string :=
  if String.eqb projection "UTM" then
    getUTMEPSG utmZone (Some (String.eqb hemisphere "N"))
  else if String.eqb projection "WebMercator" then "EPSG:3857"
  else if String.prefix "TM" projection || String.prefix "TUREF" projection then
    if String.prefix "TUREF" projection then projection
    else "ED50_" ++ projection
  else "EPSG:4326".

(** *** Notions used in the statements about the rest of the modules *)

(** An ellipsoid of revolution flattened at the poles: a positive
    semi-major axis and a flattening in (0, 1).  The ellipsoids of the
    catalog are of this kind. *)
Definition oblate (ellipsoid : Ellipsoid R) : Prop :=
  (0 < ell_a ellipsoid /\ 0 < ell_f ellipsoid < 1)%R.

(** The left-hand side of the ellipsoid's equation
    [(X^2 + Y^2)/a^2 + Z^2/b^2 = 1]. *)
Definition ellipsoidEquation (ellipsoid : Ellipsoid R) (p : XYZ R) : R :=
  let params := getEllipsoidParams ellipsoid in
  ((x p * x p + y p * y p) / (a params * a params) +
   z p * z p / (b params * b params))%R.

(** The square of the distance between two points. *)
Definition distance2 (p q : XYZ R) : R :=
  ((x p - x q) * (x p - x q) + (y p - y q) * (y p - y q) +
   (z p - z q) * (z p - z q))%R.

(** The definition registered under a name is the given one. *)
Definition registeredAs (crs definition : string) : bool :=
  match own proj4Defs crs with
  | Some d => String.eqb d definition
  | None => false
  end.

(** The values the Vincenty loop leaves when both points are on the
    equator and its last round started from [u]: [fv] is the flattening
    and [Lv] the longitude difference. *)
Definition equatorVars (fv Lv u : R) (limit : nat) : LoopVars R :=
  {| sinSigma := sin u; cosSigma := cos u; sigma := u; sinAlpha := 1%R;
     cos2Alpha := 0%R; cos2SigmaM := 0%R; lambda := (Lv + fv * u)%R;
     iterLimit := limit |}.

(** * Properties *)

(** ** Binary64 facts, from the IEEE 754 specification of the operations *)

Module FloatFacts.

Local Open Scope Z_scope.

Lemma bounded_inv (m : positive) (e : Z) :
  SpecFloat.bounded prec emax m e = true ->
  fexp prec emax (Zpos (digits2_pos m) + e) = e /\ e <= emax - prec.
Proof.
  unfold SpecFloat.bounded, canonical_mantissa. intros Hb.
  apply andb_true_iff in Hb. destruct Hb as [Hc He].
  apply Z.eqb_eq in Hc. apply Z.leb_le in He. now split.
Qed.

(** Multiplying by one rounds to the operand itself: the product
    [2^52 * m] at exponent [e - 52] is shifted back by 52 places with no
    bit lost. *)
Lemma SF64mul_one_l (v : spec_float) :
  valid_binary v = true -> SF64mul (Prim2SF 1) v = v.
Proof.
  change (Prim2SF 1) with (S754_finite false 4503599627370496 (-52)).
  destruct v as [sv | sv | | sv mv ev]; intros Hv; try reflexivity.
  cbn [valid_binary] in Hv. apply bounded_inv in Hv. destruct Hv as [Hc He].
  unfold SF64mul, SFmul. cbn [xorb].
  unfold binary_round_aux, shr_fexp.
  cbn [Pos.mul Zdigits2 digits2_pos].
  rewrite !Pos2Z.inj_succ.
  replace (fexp prec emax _) with ev.
  2:{ rewrite <- Hc at 1. f_equal. lia. }
  replace (ev - (-52 + ev)) with 52 by lia.
  cbn [shr shr_record_of_loc SpecFloat.iter_pos shr_1 orb].
  cbn [shr_m loc_of_shr_record round_nearest_even Zdigits2].
  replace (-52 + ev + 52) with ev by lia.
  rewrite Hc, Z.sub_diag. cbn [shr shr_record_of_loc shr_m].
  apply Z.leb_le in He. now rewrite He.
Qed.

Lemma SF64mul_comm (v w : spec_float) : SF64mul v w = SF64mul w v.
Proof.
  destruct v as [sv | sv | | sv mv ev], w as [sw | sw | | sw mw ew];
    cbn; rewrite ?(xorb_comm sv sw); try reflexivity.
  now rewrite (Pos.mul_comm mv mw), (Z.add_comm ev ew).
Qed.

Local Open Scope float_scope.

Lemma mul_comm (v w : float) : v * w = w * v.
Proof. apply Prim2SF_inj. rewrite !FloatAxioms.mul_spec. apply SF64mul_comm. Qed.

Lemma mul_one_l (v : float) : 1 * v = v.
Proof.
  apply Prim2SF_inj. rewrite FloatAxioms.mul_spec.
  apply SF64mul_one_l, Prim2SF_valid.
Qed.

Lemma mul_one_r (v : float) : v * 1 = v.
Proof. rewrite mul_comm. apply mul_one_l. Qed.

Lemma is_zero_spec (v : float) : F.is_zero v = true <-> zero_like v.
Proof.
  unfold F.is_zero, zero_like. rewrite FloatAxioms.eqb_spec.
  change (Prim2SF 0) with (S754_zero false).
  destruct (Prim2SF v) as [sv | sv | | sv mv ev]; cbn; split;
    try discriminate; try (intros [sg E]; discriminate); eauto.
  - destruct sv; discriminate.
  - destruct sv; discriminate.
Qed.

Lemma is_zero_false (v : float) sv mv ev :
  Prim2SF v = S754_finite sv mv ev -> F.is_zero v = false.
Proof.
  intros E. destruct (F.is_zero v) eqn:Hz; [ | reflexivity ].
  apply is_zero_spec in Hz. destruct Hz as [sg Hz]. congruence.
Qed.

Lemma sub_diag (v : float) : F.finite v = true -> v - v = 0.
Proof.
  intros Hv. apply Prim2SF_inj. rewrite FloatAxioms.sub_spec.
  change (Prim2SF 0) with (S754_zero false).
  unfold F.finite in Hv.
  destruct (Prim2SF v) as [sv | sv | | sv mv ev]; try discriminate.
  - now destruct sv.
  - unfold SF64sub, SFsub. now rewrite Z.sub_diag.
Qed.

(** *** Zeros absorb and vanish *)

Lemma zero_mul_l (u v : float) :
  zero_like u -> F.finite v = true -> zero_like (u * v).
Proof.
  intros [sg Hu] Hv. unfold zero_like, F.finite in *.
  rewrite FloatAxioms.mul_spec, Hu.
  destruct (Prim2SF v) as [sv | sv | | sv mv ev]; try discriminate; cbn; eauto.
Qed.

Lemma zero_mul_r (u v : float) :
  zero_like u -> F.finite v = true -> zero_like (v * u).
Proof. rewrite mul_comm. apply zero_mul_l. Qed.

Lemma zero_opp (u : float) : zero_like u -> zero_like (- u).
Proof.
  intros [sg Hu]. unfold zero_like. rewrite FloatAxioms.opp_spec, Hu. cbn. eauto.
Qed.

Lemma zero_add (u v : float) : zero_like u -> zero_like v -> zero_like (u + v).
Proof.
  intros [su Hu] [sv Hv]. unfold zero_like.
  rewrite FloatAxioms.add_spec, Hu, Hv. destruct su, sv; cbn; eauto.
Qed.

Lemma zero_finite (u : float) : zero_like u -> F.finite u = true.
Proof. intros [sg Hu]. unfold F.finite. now rewrite Hu. Qed.

Lemma same_refl (v : float) : F.finite v = true -> same v v.
Proof.
  unfold F.finite, same, zero_like.
  destruct (Prim2SF v) as [sv | sv | | sv mv ev]; try discriminate; eauto.
Qed.

Lemma same_finite (v w : float) : same v w -> F.finite w = true.
Proof.
  unfold same. destruct (Prim2SF v) as [sv | sv | | sv mv ev] eqn:E;
    try contradiction.
  - apply zero_finite.
  - intros ->. unfold F.finite. now rewrite E.
Qed.

Lemma same_trans (u v w : float) : same u v -> same v w -> same u w.
Proof.
  unfold same. destruct (Prim2SF u) as [su | su | | su mu eu] eqn:Eu;
    try contradiction.
  - intros [sv Hv]. now rewrite Hv.
  - intros ->. now rewrite Eu.
Qed.

Lemma same_add_zero (v w u : float) : same v w -> zero_like u -> same v (w + u).
Proof.
  unfold same. destruct (Prim2SF v) as [sv | sv | | sv mv ev] eqn:E;
    try contradiction.
  - apply zero_add.
  - intros -> [sg Hu]. apply Prim2SF_inj.
    now rewrite FloatAxioms.add_spec, E, Hu.
Qed.

Lemma same_zero_add (v w u : float) : same v w -> zero_like u -> same v (u + w).
Proof.
  unfold same. destruct (Prim2SF v) as [sv | sv | | sv mv ev] eqn:E;
    try contradiction.
  - intros Hw Hu. now apply zero_add.
  - intros -> [sg Hu]. apply Prim2SF_inj.
    now rewrite FloatAxioms.add_spec, E, Hu.
Qed.

Lemma same_sub_zero (v w u : float) : same v w -> zero_like u -> same v (w - u).
Proof.
  unfold same. destruct (Prim2SF v) as [sv | sv | | sv mv ev] eqn:E;
    try contradiction.
  - intros [sw Hw] [su Hu]. unfold zero_like.
    rewrite FloatAxioms.sub_spec, Hw, Hu. destruct sw, su; cbn; eauto.
  - intros -> [sg Hu]. apply Prim2SF_inj.
    now rewrite FloatAxioms.sub_spec, E, Hu.
Qed.

Lemma one_add_zero (u : float) : zero_like u -> 1 + u = 1.
Proof.
  intros [sg Hu]. apply Prim2SF_inj. rewrite FloatAxioms.add_spec, Hu.
  reflexivity.
Qed.

Lemma same_returns (v w : float) : same v w -> returns_number v w.
Proof.
  unfold same, returns_number.
  destruct (Prim2SF v) as [sv | sv | | sv mv ev] eqn:E; try contradiction.
  - intros Hw. assert (Hz : F.is_zero v = true) by (apply is_zero_spec; eexists; eauto).
    rewrite Hz. now apply is_zero_spec.
  - intros ->. now rewrite (is_zero_false _ _ _ _ E).
Qed.

Lemma mul_finite_l (u v : float) : F.finite (u * v) = true -> F.finite u = true.
Proof.
  unfold F.finite. rewrite FloatAxioms.mul_spec.
  destruct (Prim2SF u) as [su | su | | su mu eu]; try reflexivity;
    destruct (Prim2SF v) as [sv | sv | | sv mv ev]; cbn; intros; assumption.
Qed.

End FloatFacts.

(** ** Helmert transformation on binary64 *)

Section HelmertFacts.

Context {M : MathLib}.
Import FloatFacts.
Local Open Scope float_scope.

Lemma ARCSEC2RAD_finite : F.finite (ARCSEC2RAD (T := float)) = true.
Proof. vm_compute. reflexivity. Qed.

Lemma micro_finite : F.finite (dec (T := float) 1 6) = true.
Proof. vm_compute. reflexivity. Qed.

(** With seven zero parameters the transformation hands each finite
    coordinate back, up to the sign of a zero. *)
Lemma helmert_zeroish_same (p : HelmertParams float) (px py pz : float) :
  zeroish p ->
  F.finite px = true -> F.finite py = true -> F.finite pz = true ->
  let r := helmertTransformation {| x := px; y := py; z := pz |} p in
  same px (x r) /\ same py (y r) /\ same pz (z r).
Proof.
  intros (Htx & Hty & Htz & Hrx & Hry & Hrz & Hs) Hx Hy Hz.
  destruct p as [ptx pty ptz prx pry prz ps]. cbn [tx ty tz rx ry rz s] in *.
  apply is_zero_spec in Htx, Hty, Htz, Hrx, Hry, Hrz, Hs.
  cbn [helmertTransformation x y z add sub mul neg fromZ FloatNum].
  change (F.ofZ 1) with 1.
  assert (Hrx' := zero_mul_l _ _ Hrx ARCSEC2RAD_finite).
  assert (Hry' := zero_mul_l _ _ Hry ARCSEC2RAD_finite).
  assert (Hrz' := zero_mul_l _ _ Hrz ARCSEC2RAD_finite).
  rewrite (one_add_zero _ (zero_mul_l _ _ Hs micro_finite)).
  rewrite !mul_one_l.
  repeat split.
  - apply same_zero_add; [ | exact Htx ].
    apply same_add_zero; [ | now apply zero_mul_l ].
    apply same_sub_zero; [ now apply same_refl | now apply zero_mul_l ].
  - apply same_zero_add; [ | exact Hty ].
    apply same_sub_zero; [ | now apply zero_mul_l ].
    apply same_zero_add; [ now apply same_refl | now apply zero_mul_l ].
  - apply same_zero_add; [ | exact Htz ].
    apply same_zero_add; [ now apply same_refl | ].
    apply zero_add; [ | now apply zero_mul_l ].
    apply zero_mul_l; [ now apply zero_opp | exact Hx ].
Qed.

Lemma zeroParams_zeroish : zeroish zeroParams.
Proof. repeat split. Qed.

Lemma negated_zeroParams_zeroish : zeroish (negateParams zeroParams).
Proof. repeat split. Qed.

End HelmertFacts.

(** ** The datum pipeline *)

Section PipelineFacts.

Context {M : MathLib}.
Import FloatFacts.

Lemma DATUMS_at_own (key : string) (D : Datum float) :
  own DATUMS key = Some D -> DATUMS_at key = Own D.
Proof. intros E. unfold DATUMS_at. now rewrite E. Qed.

(** C6.  Identity datum: with source and target the same name, every
    coordinate comes back as the copy [{...coords}] of the input, all its
    components bit for bit, for every name (registered or not) and every
    mode; no arithmetic is applied. *)
Theorem transformDatum_same_datum (coords : Coords) (D : string)
    (inputType : option string) :
  transformDatum coords D D inputType = Ok coords.
Proof. unfold transformDatum. now rewrite String.eqb_refl. Qed.

(** C2 (amended).  For two distinct names of which at least one resolves
    to nothing in the catalog object, the call throws
    [Error("Unknown datum: <from> or <to>")], whatever the coordinate and
    the mode: the result depends on neither, no conversion having run. *)
Theorem transformDatum_unknown_datum (coords : Coords) (fromDatum toDatum : string)
    (inputType : option string) :
  fromDatum <> toDatum ->
  DATUMS_at (T := float) fromDatum = Undefined \/
  DATUMS_at (T := float) toDatum = Undefined ->
  transformDatum coords fromDatum toDatum inputType =
    Throw (Error ("Unknown datum: " ++ fromDatum ++ " or " ++ toDatum)).
Proof.
  intros Hne Hun. unfold transformDatum.
  apply String.eqb_neq in Hne. rewrite Hne.
  destruct Hun as [-> | ->]; cbn [truthy negb orb]; [ reflexivity | ].
  now rewrite orb_true_r.
Qed.

(** What the registry resolves between two registered datums whose stored
    parameters are all zero. *)
Lemma zero_hub_params (fromDatum toDatum : string) (D1 D2 : Datum float) :
  fromDatum <> toDatum ->
  own DATUMS fromDatum = Some D1 -> own DATUMS toDatum = Some D2 ->
  toWGS84 D1 = zeroParams -> toWGS84 D2 = zeroParams ->
  getTransformationParams (T := float) fromDatum toDatum =
    Ok (Direct (Some zeroParams)) \/
  getTransformationParams (T := float) fromDatum toDatum =
    Ok (Direct (Some (negateParams zeroParams))) \/
  getTransformationParams (T := float) fromDatum toDatum =
    Ok (ViaWGS84 (Some zeroParams) (negateParams zeroParams)).
Proof.
  intros Hne H1 H2 Z1 Z2. unfold getTransformationParams, getDatum.
  apply String.eqb_neq in Hne. rewrite Hne.
  rewrite (DATUMS_at_own _ _ H1), (DATUMS_at_own _ _ H2).
  cbn [truthy negb orb ref_toWGS84]. rewrite Z1, Z2.
  destruct (String.eqb toDatum "WGS84"); [ now left | ].
  destruct (String.eqb fromDatum "WGS84"); [ right; now left | right; now right ].
Qed.

Lemma transformDatum_zero_hub (coords : Coords) (fromDatum toDatum : string)
    (D1 D2 : Datum float) (inputType : option string) (px py pz : float) :
  fromDatum <> toDatum ->
  own DATUMS fromDatum = Some D1 -> own DATUMS toDatum = Some D2 ->
  toWGS84 D1 = zeroParams -> toWGS84 D2 = zeroParams ->
  geographicMode inputType = false ->
  c_x coords = Some px -> c_y coords = Some py -> c_z coords = Some pz ->
  F.finite px = true -> F.finite py = true -> F.finite pz = true ->
  exists r : XYZ float,
    transformDatum coords fromDatum toDatum inputType = Ok (ofXYZ r) /\
    returns_number px (x r) /\ returns_number py (y r) /\ returns_number pz (z r).
Proof.
  intros Hne H1 H2 Z1 Z2 Hmode Ex Ey Ez Fx Fy Fz.
  destruct inputType as [t | ]; [ | discriminate ]. cbn [geographicMode] in Hmode.
  unfold transformDatum. rewrite Hmode.
  rewrite (proj2 (String.eqb_neq _ _) Hne).
  rewrite (DATUMS_at_own _ _ H1), (DATUMS_at_own _ _ H2).
  cbn [truthy negb orb]. rewrite Ex, Ey, Ez. cbn [toNumber].
  destruct (helmert_zeroish_same zeroParams px py pz zeroParams_zeroish Fx Fy Fz)
    as (Sx & Sy & Sz).
  destruct (helmert_zeroish_same (negateParams zeroParams) px py pz
              negated_zeroParams_zeroish Fx Fy Fz) as (Nx & Ny & Nz).
  destruct (zero_hub_params _ _ _ _ Hne H1 H2 Z1 Z2) as [-> | [-> | ->]];
    cbn [bind withDefined].
  - eexists. split; [ reflexivity | ].
    split; [ | split ]; apply same_returns; [ exact Sx | exact Sy | exact Sz ].
  - eexists. split; [ reflexivity | ].
    split; [ | split ]; apply same_returns; [ exact Nx | exact Ny | exact Nz ].
  - clear Nx Ny Nz. revert Sx Sy Sz.
    destruct (helmertTransformation {| x := px; y := py; z := pz |} zeroParams)
      as [r1x r1y r1z].
    cbn [x y z]. intros Sx Sy Sz.
    destruct (helmert_zeroish_same (negateParams zeroParams) r1x r1y r1z
                negated_zeroParams_zeroish
                (same_finite _ _ Sx) (same_finite _ _ Sy) (same_finite _ _ Sz))
      as (Tx & Ty & Tz).
    eexists. split; [ reflexivity | ].
    split; [ | split ]; apply same_returns;
      [ exact (same_trans _ _ _ Sx Tx) | exact (same_trans _ _ _ Sy Ty)
      | exact (same_trans _ _ _ Sz Tz) ].
Qed.

(** C9 (amended).  Applying the Helmert transformation with the all-zero
    parameter set to finite coordinates returns each component as the same
    number: bit for bit when it is not a zero, and as a zero (whose sign is
    not kept) when it is.  The same holds for a geocentric-mode datum
    transformation between two distinct registered datums whose stored
    parameters are all zero. *)
Theorem zero_parameters_return_input :
  (forall px py pz : float,
     F.finite px = true -> F.finite py = true -> F.finite pz = true ->
     let r := helmertTransformation {| x := px; y := py; z := pz |} zeroParams in
     returns_number px (x r) /\ returns_number py (y r) /\ returns_number pz (z r)) /\
  (forall (coords : Coords) (fromDatum toDatum : string) (D1 D2 : Datum float)
          (inputType : option string) (px py pz : float),
     fromDatum <> toDatum ->
     own DATUMS fromDatum = Some D1 -> own DATUMS toDatum = Some D2 ->
     toWGS84 D1 = zeroParams -> toWGS84 D2 = zeroParams ->
     geographicMode inputType = false ->
     c_x coords = Some px -> c_y coords = Some py -> c_z coords = Some pz ->
     F.finite px = true -> F.finite py = true -> F.finite pz = true ->
     exists r : XYZ float,
       transformDatum coords fromDatum toDatum inputType = Ok (ofXYZ r) /\
       returns_number px (x r) /\ returns_number py (y r) /\ returns_number pz (z r)).
Proof.
  split.
  - intros px py pz Fx Fy Fz.
    destruct (helmert_zeroish_same zeroParams px py pz zeroParams_zeroish Fx Fy Fz)
      as (Sx & Sy & Sz).
    split; [ | split ]; apply same_returns; [ exact Sx | exact Sy | exact Sz ].
  - intros coords fromDatum toDatum D1 D2 inputType px py pz.
    apply transformDatum_zero_hub.
Qed.


End PipelineFacts.

(** ** Concrete calls, under the reference library *)

Section Concrete.

#[local] Existing Instance RefMath.lib.
Import FloatFacts.
Local Open Scope float_scope.

(** C2, counterexample.  With both names the same unregistered name the
    call throws nothing: the input comes back. *)
Lemma unknown_equal_names_returned :
  registered "Atlantis" = false /\
  transformDatum (geocentricCoords 1 2 3) "Atlantis" "Atlantis" (Some "geocentric") =
    Ok (geocentricCoords 1 2 3).
Proof. split; reflexivity. Qed.

Lemma transformDatum_unknown_datum_witness :
  "Atlantis" <> "WGS84" /\
  DATUMS_at (T := float) "Atlantis" = Undefined /\
  transformDatum (geographicCoords 41 29 None) "Atlantis" "WGS84" None =
    Throw (Error "Unknown datum: Atlantis or WGS84").
Proof.
  split; [ discriminate | ]. split; [ reflexivity | ].
  apply (transformDatum_unknown_datum (geographicCoords 41 29 None) "Atlantis" "WGS84" None);
    [ discriminate | left; reflexivity ].
Defined.

(** A name inherited from [Object.prototype] is not rejected as unknown
    either: the property reads on it end in a [TypeError]. *)
Example inherited_name_type_error :
  transformDatum (geocentricCoords 1 2 3) "toString" "WGS84" (Some "geocentric") =
    Throw TypeError.
Proof. reflexivity. Qed.

(** C9, counterexample.  A negative zero comes back as the positive zero. *)
Lemma negative_zero_not_returned :
  x (helmertTransformation {| x := -0; y := 0; z := 0 |} zeroParams) <> (-0)%float.
Proof.
  intros E. apply (f_equal Prim2SF) in E. vm_compute in E. discriminate E.
Qed.

Lemma zero_parameters_return_input_witness :
  exists r : XYZ float,
    transformDatum (geocentricCoords 4000000 3000000 (-0)) "ITRF2014" "NAD83"
      (Some "geocentric") = Ok (ofXYZ r) /\
    returns_number 4000000 (x r) /\ returns_number 3000000 (y r) /\
    returns_number (-0) (z r).
Proof.
  eapply (proj2 zero_parameters_return_input
            (geocentricCoords 4000000 3000000 (-0)) "ITRF2014" "NAD83");
    first [ discriminate | reflexivity ].
Defined.



(** HD72 names the ellipsoid [GRS67], which the ellipsoid catalog lacks:
    in geographic mode the conversion reads [a] of [undefined]. *)
Example hd72_geographic_type_error :
  resolves "HD72" = false /\
  transformDatum (geographicCoords 47 19 None) "HD72" "WGS84" None = Throw TypeError.
Proof. split; reflexivity. Qed.

(** C1, counterexample.  With the OSGB36 parameters, a point near London
    comes back more than a micrometre off in every component (6 mm, 4 mm
    and 10 mm). *)
Lemma helmert_round_trip_off :
  exists P : HelmertParams float,
    In P catalogParams /\
    let X := {| x := 3980574.247; y := -102.127; z := 4966830.065 |} in
    within 1e-6 (x (helmertRoundTrip P X)) (x X) = false /\
    within 1e-6 (y (helmertRoundTrip P X)) (y X) = false /\
    within 1e-6 (z (helmertRoundTrip P X)) (z X) = false.
Proof.
  eexists. split; [ do 9 right; left; reflexivity | ].
  vm_compute. repeat split.
Qed.

End Concrete.

(** ** Helmert transformation in real arithmetic *)

(** The powers of ten of the decimal literals. *)
Ltac eval_pow10 :=
  repeat match goal with
  | |- context [Z.pow ?u (Z.of_nat ?n)] =>
    let v := eval vm_compute in (Z.pow u (Z.of_nat n)) in
    change (Z.pow u (Z.of_nat n)) with v
  end.

Lemma Rabs_le_between (u v : R) : (Rabs u <= v -> - v <= u <= v)%R.
Proof. unfold Rabs. destruct (Rcase_abs u); lra. Qed.

Section HelmertReal.

Local Open Scope R_scope.

(** An arc-second is positive and below 6.2e-6 radians. *)
Lemma ARCSEC2RAD_bounds : 0 < ARCSEC2RAD (T := R) <= 62 / 10000000.
Proof.
  unfold ARCSEC2RAD. cbn [Math_PI fromZ div mul RealNum].
  assert (H0 := PI_RGT_0). assert (H4 := PI_4).
  split.
  - apply Rdiv_lt_0_compat; lra.
  - apply Rle_trans with (4 / (180 * 3600)); [ | lra ].
    unfold Rdiv. apply Rmult_le_compat_r; [ | exact H4 ].
    apply Rlt_le, Rinv_0_lt_compat. lra.
Qed.

(** Unfold one round trip down to a polynomial in the coordinates and
    the arc-second [r], with the bounds on the monomials it contains. *)
Ltac round_trip_polynomial Hx Hy Hz :=
  cbv zeta;
  unfold helmertRoundTrip, inverseHelmertTransformation, helmertTransformation, shift,
    zeroParams;
  cbn [x y z tx ty tz rx ry rz s add sub mul div neg fromZ dec RealNum];
  eval_pow10;
  generalize ARCSEC2RAD_bounds; generalize (ARCSEC2RAD (T := R));
  let r := fresh "r" in
  let Hr := fresh "Hr" in
  intros r Hr;
  match type of Hx with
  | _ <= ?px <= _ =>
    match type of Hy with
    | _ <= ?py <= _ =>
      match type of Hz with
      | _ <= ?pz <= _ =>
        assert (-62 <= r * px <= 62) by nra;
        assert (-62 <= r * py <= 62) by nra;
        assert (-62 <= r * pz <= 62) by nra;
        assert (0 <= r * r <= 3844 / 100000000000000) by nra;
        assert (-3844 / 10000000 <= r * r * px <= 3844 / 10000000) by nra;
        assert (-3844 / 10000000 <= r * r * py <= 3844 / 10000000) by nra;
        assert (-3844 / 10000000 <= r * r * pz <= 3844 / 10000000) by nra
      end
    end
  end.

(** The round trip stays within 5 cm of a point whose coordinates are
    below 10^7 m in magnitude. *)
Lemma round_trip_bound (P : HelmertParams R) (px py pz : R) :
  In P catalogParams ->
  Rabs px <= 10000000 -> Rabs py <= 10000000 -> Rabs pz <= 10000000 ->
  let X := {| x := px; y := py; z := pz |} in
  Rabs (x (helmertRoundTrip P X) - px) <= 5 / 100 /\
  Rabs (y (helmertRoundTrip P X) - py) <= 5 / 100 /\
  Rabs (z (helmertRoundTrip P X) - pz) <= 5 / 100.
Proof.
  intros HP Hx Hy Hz.
  apply Rabs_le_between in Hx, Hy, Hz.
  cbv [catalogParams DATUMS map snd toWGS84 In] in HP.
  repeat (destruct HP as [<- | HP]); try contradiction;
    (split; [ | split ]); round_trip_polynomial Hx Hy Hz;
    apply Rabs_le; split; nra.
Qed.

(** Without rotation and scale the round trip is the identity. *)
Lemma round_trip_translation (P : HelmertParams R) (X : XYZ R) :
  translationOnly P -> helmertRoundTrip P X = X.
Proof.
  intros (Hrx & Hry & Hrz & Hs).
  destruct P as [ptx pty ptz prx pry prz ps], X as [px py pz].
  cbn [rx ry rz s] in *. subst.
  unfold helmertRoundTrip, inverseHelmertTransformation, helmertTransformation.
  cbn [x y z tx ty tz rx ry rz s add sub mul div neg fromZ dec RealNum].
  eval_pow10. f_equal; field.
Qed.

(** C1 (amended).  In real arithmetic, for every parameter set [P] of the
    datum catalog and every point [X] with coordinates of magnitude at
    most 10^7 m, [apply(invert(P), apply(P, X))] is within 0.05 m of [X] in
    each component, and it is [X] itself when [P] has neither rotation nor
    scale. *)
Theorem helmert_round_trip_real (P : HelmertParams R) (px py pz : R) :
  In P catalogParams ->
  Rabs px <= 10000000 -> Rabs py <= 10000000 -> Rabs pz <= 10000000 ->
  let X := {| x := px; y := py; z := pz |} in
  (Rabs (x (helmertRoundTrip P X) - px) <= 5 / 100 /\
   Rabs (y (helmertRoundTrip P X) - py) <= 5 / 100 /\
   Rabs (z (helmertRoundTrip P X) - pz) <= 5 / 100) /\
  (translationOnly P -> helmertRoundTrip P X = X).
Proof.
  intros HP Hx Hy Hz X. split.
  - now apply round_trip_bound.
  - apply round_trip_translation.
Qed.

(** The parameter sets of the catalog with a rotation or a scale are
    those of OSGB36 and Pulkovo 1942. *)
Lemma catalog_translation_only (key : string) (D : Datum R) :
  own DATUMS key = Some D ->
  key <> "OSGB36" -> key <> "Pulkovo1942" -> translationOnly (toWGS84 D).
Proof.
  intros HD H1 H2. cbv [own DATUMS] in HD.
  repeat match type of HD with
  | (if String.eqb ?k key then _ else _) = _ =>
    destruct (String.eqb_spec k key) as [? | ?];
      [ injection HD as <-; try (subst key; congruence) | ]
  end; try discriminate;
  unfold translationOnly;
  cbn [rx ry rz s toWGS84 zeroParams shift fromZ RealNum]; auto.
Qed.

Lemma helmert_round_trip_real_witness :
  let P := nth 9 (catalogParams (T := R)) zeroParams in
  let X := {| x := 3980574; y := -102; z := 4966830 |} in
  (Rabs (x (helmertRoundTrip P X) - 3980574) <= 5 / 100 /\
   Rabs (y (helmertRoundTrip P X) - -102) <= 5 / 100 /\
   Rabs (z (helmertRoundTrip P X) - 4966830) <= 5 / 100) /\
  (translationOnly P -> helmertRoundTrip P X = X).
Proof.
  apply (helmert_round_trip_real (nth 9 catalogParams zeroParams) 3980574 (-102) 4966830).
  - unfold catalogParams, DATUMS. cbn [map nth snd toWGS84 In].
    do 9 right. left. reflexivity.
  - apply Rabs_le. lra.
  - apply Rabs_le. lra.
  - apply Rabs_le. lra.
Defined.

End HelmertReal.

(** ** The Vincenty loop *)

Section LoopFacts.

Context {T : Type} {num : JSNum T}.

(** The three ways a call ends. *)
Lemma vincentyDistance_cases (lat1 lon1 lat2 lon2 : T) (ellipsoid : Ellipsoid T) :
  let q := reduced lat1 lon1 lat2 lon2 ellipsoid in
  (loopOf q 99 (red_L q) = Coincident /\
   vincentyDistance lat1 lon1 lat2 lon2 ellipsoid = Some zeroResult) \/
  (exists v, loopOf q 99 (red_L q) = Done v /\ iterLimit v = O /\
     vincentyDistance lat1 lon1 lat2 lon2 ellipsoid = None) \/
  (exists v r, loopOf q 99 (red_L q) = Done v /\ iterLimit v <> O /\
     vincentyDistance lat1 lon1 lat2 lon2 ellipsoid = Some r).
Proof.
  unfold vincentyDistance, loopOf, reduced, reducedLatitude, zeroResult.
  cbn [red_f red_L red_sinU1 red_cosU1 red_sinU2 red_cosU2].
  destruct (vincentyLoop _ _ _ _ _ _ 99 _) as [ | v]; [ left; now split | right ].
  destruct (Nat.eqb_spec (iterLimit v) 0) as [E0 | E0]; [ left | right ]; eauto.
Qed.

(** The values the body computes do not depend on the counter. *)
Lemma body_limit (q : Reduced T) (k k' : nat) (lambda0 : T) :
  bodyOf q k lambda0 =
  match bodyOf q k' lambda0 with
  | Some v => Some (withLimit v k)
  | None => None
  end.
Proof.
  unfold bodyOf, vincentyBody.
  destruct (strictEq _ _); reflexivity.
Qed.

Lemma body_iterLimit (q : Reduced T) (k : nat) (lambda0 : T) (v : LoopVars T) :
  bodyOf q k lambda0 = Some v -> iterLimit v = k.
Proof.
  unfold bodyOf, vincentyBody.
  destruct (strictEq _ _); [ discriminate | ].
  intros E. injection E as <-. reflexivity.
Qed.

(** The loop from [lambda0] with [S n] rounds allowed ends on the
    counter 0 exactly when each of these rounds is still moving. *)
Lemma loop_cap (q : Reduced T) (n : nat) (lambda0 : T) :
  movingFrom q (S n) lambda0 = true <->
  exists v, loopOf q n lambda0 = Done v /\ iterLimit v = O.
Proof.
  revert lambda0. induction n as [ | n IH]; intros lambda0.
  - cbn [movingFrom loopOf vincentyLoop]. unfold coincidentAt, nextLambda.
    rewrite (body_limit q 0 1 lambda0). fold (bodyOf q 1 lambda0).
    destruct (bodyOf q 1 lambda0) as [v | ] eqn:Eb; cbn [negb andb withLimit lambda].
    + rewrite andb_true_r.
      destruct (notConverged lambda0 (lambda v)).
      * split; [ intros _; eexists; split; reflexivity | reflexivity ].
      * split; [ discriminate | ]. intros (w & Ew & Hw).
        injection Ew as <-. rewrite (body_iterLimit _ _ _ _ Eb) in Hw. discriminate.
    + split; [ discriminate | intros (w & Ew & _); discriminate ].
  - change (movingFrom q (S (S n)) lambda0) with
      (negb (coincidentAt q lambda0) &&
       notConverged lambda0 (nextLambda q lambda0) &&
       movingFrom q (S n) (nextLambda q lambda0)).
    cbn [loopOf vincentyLoop]. unfold coincidentAt, nextLambda.
    rewrite (body_limit q 0 (S (S n)) lambda0). fold (bodyOf q (S (S n)) lambda0).
    destruct (bodyOf q (S (S n)) lambda0) as [v | ] eqn:Eb;
      cbn [negb andb withLimit lambda].
    + destruct (notConverged lambda0 (lambda v)); cbn [andb].
      * apply IH.
      * split; [ discriminate | ]. intros (w & Ew & Hw).
        injection Ew as <-. rewrite (body_iterLimit _ _ _ _ Eb) in Hw. discriminate.
    + split; [ discriminate | intros (w & Ew & _); discriminate ].
Qed.

Lemma movingFrom_rounds (q : Reduced T) (rounds : nat) (lambda0 : T) :
  movingFrom q rounds lambda0 = true <->
  forall n, (n < rounds)%nat ->
    negb (coincidentAt q (Nat.iter n (nextLambda q) lambda0)) &&
    notConverged (Nat.iter n (nextLambda q) lambda0)
      (Nat.iter (S n) (nextLambda q) lambda0) = true.
Proof.
  revert lambda0. induction rounds as [ | k IH]; intros lambda0.
  - split; [ intros _ n Hn; lia | reflexivity ].
  - cbn [movingFrom]. rewrite !andb_true_iff, IH. split.
    + intros [[Hc Hm] Hrest] [ | n] Hn.
      * cbn [Nat.iter nat_rect]. now rewrite Hc, Hm.
      * specialize (Hrest n ltac:(lia)).
        rewrite (Nat.iter_succ_r n), (Nat.iter_succ_r (S n)). exact Hrest.
    + intros Hall. split.
      * specialize (Hall O ltac:(lia)). cbn [Nat.iter nat_rect] in Hall.
        now apply andb_true_iff in Hall.
      * intros n Hn. specialize (Hall (S n) ltac:(lia)).
        rewrite (Nat.iter_succ_r n), (Nat.iter_succ_r (S n)) in Hall. exact Hall.
Qed.

(** The call returns [null] exactly when each of the 100 rounds runs to
    its end and leaves [|lambda - lambdaP| > 1e-12]. *)
Lemma vincentyDistance_null_iff (lat1 lon1 lat2 lon2 : T) (ellipsoid : Ellipsoid T) :
  vincentyDistance lat1 lon1 lat2 lon2 ellipsoid = None <->
  forall n, (n < 100)%nat ->
    stillMoving (reduced lat1 lon1 lat2 lon2 ellipsoid) n = true.
Proof.
  set (q := reduced lat1 lon1 lat2 lon2 ellipsoid).
  unfold stillMoving, lambdaAt.
  rewrite <- (movingFrom_rounds q 100 (red_L q)), (loop_cap q 99 (red_L q)).
  destruct (vincentyDistance_cases lat1 lon1 lat2 lon2 ellipsoid)
    as [[El Er] | [(v & El & E0 & Er) | (v & r & El & E0 & Er)]];
    fold q in El; rewrite El, Er.
  - split; [ discriminate | intros (w & Ew & _); discriminate ].
  - split; [ eauto | reflexivity ].
  - split; [ discriminate | ].
    intros (w & Ew & Hw). injection Ew as <-. contradiction.
Qed.

(** C7.  Whenever the iteration runs its 100 rounds, none of them ending
    in the coincident-point return and each leaving the change of
    [lambda] above 1e-12 (so that the counter reaches 0), the call returns
    [null], the result that stands for non-convergence, and no
    distance/azimuth triple. *)
Theorem vincentyDistance_cap_returns_null
    (lat1 lon1 lat2 lon2 : T) (ellipsoid : Ellipsoid T) :
  (forall n, (n < 100)%nat ->
     stillMoving (reduced lat1 lon1 lat2 lon2 ellipsoid) n = true) ->
  vincentyDistance lat1 lon1 lat2 lon2 ellipsoid = None.
Proof. apply vincentyDistance_null_iff. Qed.

End LoopFacts.

(** ** The Vincenty inverse on binary64 *)

Section VincentyFloat.

Context {M : MathLib}.
Import FloatFacts.
Local Open Scope float_scope.

(** Identical endpoints on binary64: the first round of the loop finds
    [sinSigma === 0], under every [Math] library with the exact results
    at zero, for a finite longitude and a latitude whose reduced latitude
    has a finite [cos * sin] product. *)
Lemma identical_points_binary64
    (la lo : float) (ellipsoid : Ellipsoid float) :
  ExactAtZero M ->
  F.finite lo = true ->
  F.finite (Math_cos (reducedLatitude ellipsoid la) *
            Math_sin (reducedLatitude ellipsoid la)) = true ->
  let q := reduced la lo la lo ellipsoid in
  loopOf q 99 (red_L q) = Coincident /\
  vincentyDistance la lo la lo ellipsoid = Some zeroResult.
Proof.
  intros [Hsin Hcos Hpow] Hlo Hfin q.
  assert (Hloop : loopOf q 99 (red_L q) = Coincident).
  { unfold loopOf, q, reduced.
    cbn [red_f red_L red_sinU1 red_cosU1 red_sinU2 red_cosU2].
    set (U := reducedLatitude ellipsoid la) in *.
    assert (HL : toRadians (sub lo lo) = 0).
    { unfold toRadians. cbn [sub mul FloatNum]. rewrite (sub_diag lo Hlo). reflexivity. }
    rewrite HL. cbn [vincentyLoop]. unfold vincentyBody.
    cbn [Math_sin Math_cos Math_pow Math_sqrt add sub mul strictEq fromZ FloatNum] in *.
    rewrite Hsin, Hcos, mul_one_r.
    rewrite (mul_comm (lib_sin U) (lib_cos U)), (sub_diag _ Hfin).
    assert (Hz : F.is_zero (lib_cos U * 0) = true).
    { apply is_zero_spec, zero_mul_r.
      - now exists false.
      - exact (mul_finite_l _ _ Hfin). }
    change (F.ofZ 2) with 2. rewrite (Hpow _ Hz), (Hpow 0 eq_refl).
    reflexivity. }
  split; [ exact Hloop | ].
  destruct (vincentyDistance_cases la lo la lo ellipsoid)
    as [[El Er] | [(v & El & _) | (v & r & El & _)]]; fold q in El.
  - exact Er.
  - rewrite Hloop in El. discriminate.
  - rewrite Hloop in El. discriminate.
Qed.

End VincentyFloat.

(** ** Geographic and geocentric coordinates, under the reference library *)

Section ConcreteConversion.

#[local] Existing Instance RefMath.lib.
Local Open Scope float_scope.

(** The conversion of (41.0082, 28.9784, 0) on WGS84. *)
Example geographicToGeocentric_istanbul :
  geographicToGeocentric 41.0082 28.9784 0 WGS84 =
    {| x := 4216541.9759653769; y := 2335189.8004808403; z := 4163110.4286976042 |}.
Proof. vm_compute. reflexivity. Qed.



End ConcreteConversion.

(** ** Real arithmetic: enclosures *)

Module Enclosure.

Local Open Scope R_scope.

(** Pi to eleven decimals, from Machin's formula with 1/3 and 1/7. *)
Lemma PI_bounds : 314159265358 / 100000000000 < PI < 314159265359 / 100000000000.
Proof.
  destruct (PI_2_3_7_ineq 6) as [Hlo Hhi].
  unfold sum_f_R0, tg_alt, PI_2_3_7_tg, Ratan_seq in Hlo, Hhi.
  cbn [Nat.mul Nat.add] in Hlo, Hhi.
  rewrite ?S_INR in Hlo, Hhi. cbn [INR] in Hlo, Hhi.
  split; lra.
Qed.

Lemma INR_fact_S (n : nat) : INR (fact (S n)) = INR (S n) * INR (fact n).
Proof. rewrite fact_simpl. apply mult_INR. Qed.

Ltac taylor_numerals :=
  cbn [Nat.mul Nat.add];
  repeat rewrite INR_fact_S;
  change (fact 0) with 1%nat;
  repeat rewrite S_INR; cbn [INR].

Lemma sin_approx_5 (u : R) : sin_approx u 5 = sinP u.
Proof. unfold sin_approx, sum_f_R0, sin_term, sinP. taylor_numerals. field. Qed.

Lemma sin_approx_6 (u : R) : sin_approx u 6 = sinP u + u^13/6227020800.
Proof. unfold sin_approx, sum_f_R0, sin_term, sinP. taylor_numerals. field. Qed.

Lemma cos_approx_5 (u : R) : cos_approx u 5 = cosP u.
Proof. unfold cos_approx, sum_f_R0, cos_term, cosP. taylor_numerals. field. Qed.

Lemma cos_approx_6 (u : R) : cos_approx u 6 = cosP u + u^12/479001600.
Proof. unfold cos_approx, sum_f_R0, cos_term, cosP. taylor_numerals. field. Qed.

(** Sine and cosine of an angle enclosed in the first quadrant. *)
Lemma sin_between (lo u hi : R) :
  0 <= lo -> lo <= u -> u <= hi -> hi <= 3/2 ->
  sinP lo <= sin u <= sinP hi + hi^13/6227020800.
Proof.
  intros H0 H1 H2 H3. assert (HP := PI_bounds).
  split.
  - apply Rle_trans with (sin lo).
    + rewrite <- sin_approx_5. apply (sin_bound lo 2); lra.
    + destruct (Req_dec lo u) as [-> | Hne]; [ lra | ].
      apply Rlt_le, sin_increasing_1; lra.
  - apply Rle_trans with (sin hi).
    + destruct (Req_dec u hi) as [-> | Hne]; [ lra | ].
      apply Rlt_le, sin_increasing_1; lra.
    + rewrite <- sin_approx_6. apply (sin_bound hi 2); lra.
Qed.

Lemma cos_between (lo u hi : R) :
  0 <= lo -> lo <= u -> u <= hi -> hi <= 3/2 ->
  cosP hi <= cos u <= cosP lo + lo^12/479001600.
Proof.
  intros H0 H1 H2 H3. assert (HP := PI_bounds).
  split.
  - apply Rle_trans with (cos hi).
    + rewrite <- cos_approx_5. apply (cos_bound hi 2); lra.
    + destruct (Req_dec u hi) as [-> | Hne]; [ lra | ].
      apply Rlt_le, cos_decreasing_1; lra.
  - apply Rle_trans with (cos lo).
    + destruct (Req_dec lo u) as [-> | Hne]; [ lra | ].
      apply Rlt_le, cos_decreasing_1; lra.
    + rewrite <- cos_approx_6. apply (cos_bound lo 2); lra.
Qed.

Lemma mul_between (u ulo uhi v vlo vhi : R) :
  0 <= ulo -> ulo <= u <= uhi -> 0 <= vlo -> vlo <= v <= vhi ->
  ulo * vlo <= u * v <= uhi * vhi.
Proof. intros. split; nra. Qed.

Lemma sqrt_between (v lo hi : R) :
  0 <= lo -> lo * lo <= v -> v <= hi * hi -> 0 <= hi -> lo <= sqrt v <= hi.
Proof.
  intros Hlo H1 H2 Hhi. split.
  - rewrite <- (sqrt_square lo Hlo). apply sqrt_le_1_alt. exact H1.
  - rewrite <- (sqrt_square hi Hhi). apply sqrt_le_1_alt. exact H2.
Qed.

Lemma div_between (u v lo hi : R) :
  0 < u -> 0 < lo -> lo <= v <= hi -> u / hi <= u / v <= u / lo.
Proof.
  intros Hu Hlo [H1 H2]. unfold Rdiv. split.
  - apply Rmult_le_compat_l; [ lra | ]. apply Rinv_le_contravar; lra.
  - apply Rmult_le_compat_l; [ lra | ]. apply Rinv_le_contravar; lra.
Qed.

(** From the enclosures [H1] of [u] and [H2] of [v], the enclosure of
    [u * v] (all bounds positive). *)
Ltac enclose_mul H1 H2 name :=
  match type of H1 with
  | ?ulo <= ?u <= ?uhi =>
    match type of H2 with
    | ?vlo <= ?v <= ?vhi =>
      assert (name : ulo * vlo <= u * v <= uhi * vhi)
        by (apply mul_between; [ lra | exact H1 | lra | exact H2 ])
    end
  end.

Ltac enclose_trig lem H name :=
  match type of H with
  | ?lo <= ?u <= ?hi =>
    pose proof (lem lo u hi) as name;
    unfold sinP, cosP in name;
    specialize (name ltac:(lra) (proj1 H) (proj2 H) ltac:(lra))
  end.

End Enclosure.

(** ** Geographic to geocentric in real arithmetic *)

Section ConversionReal.

Import Enclosure.
Local Open Scope R_scope.

(** The closed form at (41.0082, 28.9784, 0) on WGS84, to a centimetre. *)
Lemma istanbul_enclosure :
  let p := geographicToGeocentric (num := RealNum)
             (dec 410082 4) (dec 289784 4) (fromZ 0) WGS84 in
  Rabs (x p - 4216541976 / 1000) <= 1 / 100 /\
  Rabs (y p - 2335189800 / 1000) <= 1 / 100 /\
  Rabs (z p - 4163110429 / 1000) <= 1 / 100.
Proof.
  cbv zeta.
  unfold geographicToGeocentric, getEllipsoidParams, toRadians, DEG2RAD, WGS84.
  cbn [x y z a e2 ell_a ell_f add sub mul div neg fromZ dec
       Math_sin Math_cos Math_sqrt Math_PI RealNum].
  eval_pow10.
  assert (HP := PI_bounds).
  set (phi := 410082 / 10000 * (PI / 180)).
  set (lam := 289784 / 10000 * (PI / 180)).
  assert (Hphi : 71572811029 / 100000000000 <= phi <= 71572811034 / 100000000000)
    by (unfold phi; split; lra).
  assert (Hlam : 50576849194 / 100000000000 <= lam <= 50576849198 / 100000000000)
    by (unfold lam; split; lra).
  enclose_trig sin_between Hphi Tsp.
  enclose_trig cos_between Hphi Tcp.
  enclose_trig sin_between Hlam Tsl.
  enclose_trig cos_between Hlam Tcl.
  assert (Hs1 : 65616703400 / 100000000000 <= sin phi <= 65616703408 / 100000000000)
    by (split; lra).
  assert (Hc1 : 75461567924 / 100000000000 <= cos phi <= 75461567935 / 100000000000)
    by (split; lra).
  assert (Hs2 : 48447986190 / 100000000000 <= sin lam <= 48447986198 / 100000000000)
    by (split; lra).
  assert (Hc2 : 87480241386 / 100000000000 <= cos lam <= 87480241394 / 100000000000)
    by (split; lra).
  clear Tsp Tcp Tsl Tcl.
  generalize dependent (sin phi). generalize dependent (cos phi).
  generalize dependent (sin lam). generalize dependent (cos lam).
  clear phi lam Hphi Hlam. intros c2 Hc2 s2 Hs2 c1 Hc1 s1 Hs1.
  set (f := 1 / (298257223563 / 1000000000)).
  set (e2 := 2 * f - f * f).
  assert (He2 : 669437999 / 100000000000 <= e2 <= 669438000 / 100000000000)
    by (unfold e2, f; split; lra).
  enclose_mul He2 Hs1 He1.
  enclose_mul He1 Hs1 Hes.
  assert (HW : 99855781006 / 100000000000 <= sqrt (1 - e2 * s1 * s1)
               <= 99855781007 / 100000000000).
  { apply sqrt_between; lra. }
  generalize dependent (sqrt (1 - e2 * s1 * s1)). intros W HW.
  assert (HN : 6378137 / (99855781007 / 100000000000) <= 6378137 / W
               <= 6378137 / (99855781006 / 100000000000))
    by (apply div_between; [ lra | lra | exact HW ]).
  rewrite !Rplus_0_r.
  generalize dependent (6378137 / W). intros N HN.
  enclose_mul HN Hc1 HNc.
  enclose_mul HNc Hc2 HX.
  enclose_mul HNc Hs2 HY.
  assert (He2' : 1 - 669438000 / 100000000000 <= 1 - e2
                 <= 1 - 669437999 / 100000000000) by lra.
  enclose_mul HN He2' HNe.
  enclose_mul HNe Hs1 HZ.
  split; [ | split ]; apply Rabs_le; split; lra.
Qed.

(** C4 (amended).  In real arithmetic the closed form
    [X = (N+h) cos(phi) cos(lambda)], [Y = (N+h) cos(phi) sin(lambda)],
    [Z = (N(1-e^2)+h) sin(phi)] at latitude 41.0082, longitude 28.9784,
    height 0 on WGS84 gives X = 4216541.976, Y = 2335189.800 and
    Z = 4163110.429 metres, each to a centimetre. *)
Theorem geographicToGeocentric_istanbul_real :
  let p := geographicToGeocentric (num := RealNum)
             (dec 410082 4) (dec 289784 4) (fromZ 0) WGS84 in
  Rabs (x p - 4216541976 / 1000) <= 1 / 100 /\
  Rabs (y p - 2335189800 / 1000) <= 1 / 100 /\
  Rabs (z p - 4163110429 / 1000) <= 1 / 100.
Proof. exact istanbul_enclosure. Qed.

(** C4, counterexample.  The values are not the stated ones: X is more
    than 74 km from 4141604, Y more than 57 km from 2278000 and Z more
    than 5 km from 4169100. *)
Lemma geographicToGeocentric_istanbul_not_as_stated :
  let p := geographicToGeocentric (num := RealNum)
             (dec 410082 4) (dec 289784 4) (fromZ 0) WGS84 in
  Rabs (x p - 4141604) > 74000 /\
  Rabs (y p - 2278000) > 57000 /\
  Rabs (z p - 4169100) > 5000.
Proof.
  cbv zeta. destruct istanbul_enclosure as (HX & HY & HZ).
  apply Rabs_le_between in HX, HY, HZ.
  split; [ | split ]; unfold Rabs; destruct (Rcase_abs _); lra.
Qed.

End ConversionReal.

(** ** The Vincenty inverse in real arithmetic *)

Section VincentyReal.

Import Enclosure.
Local Open Scope R_scope.

Lemma Re_eqb_refl (u : R) : Re.eqb u u = true.
Proof. unfold Re.eqb. destruct (Req_dec_T u u); [ reflexivity | contradiction ]. Qed.

Lemma Re_eqb_neq (u v : R) : u <> v -> Re.eqb u v = false.
Proof.
  intros Hne. unfold Re.eqb.
  destruct (Req_dec_T u v); [ contradiction | reflexivity ].
Qed.

Lemma Re_pow_two (u : R) : Re.pow u 2 = u * u.
Proof. unfold Re.pow. destruct (Req_dec_T 2 2); [ reflexivity | contradiction ]. Qed.

Lemma atan2_sin_cos (u : R) : 0 < u < PI / 2 -> Re.atan2 (sin u) (cos u) = u.
Proof.
  intros Hu. unfold Re.atan2.
  assert (Hc : 0 < cos u) by (apply cos_gt_0; lra).
  destruct (Rlt_dec 0 (cos u)); [ | contradiction ].
  change (sin u / cos u) with (tan u). apply atan_tan. lra.
Qed.

Lemma atan2_up (v : R) : 0 < v -> Re.atan2 v 0 = PI / 2.
Proof.
  intros Hv. unfold Re.atan2.
  destruct (Rlt_dec 0 0); [ lra | ].
  destruct (Rlt_dec 0 v); [ reflexivity | contradiction ].
Qed.

(** Identical endpoints, in real arithmetic: no assumption is needed. *)
Lemma identical_points_real (la lo : R) (ellipsoid : Ellipsoid R) :
  let q := reduced (num := RealNum) la lo la lo ellipsoid in
  loopOf q 99 (red_L q) = Coincident /\
  vincentyDistance la lo la lo ellipsoid = Some zeroResult.
Proof.
  intros q.
  assert (Hloop : loopOf q 99 (red_L q) = Coincident).
  { unfold loopOf, q, reduced, toRadians.
    cbn [red_f red_L red_sinU1 red_cosU1 red_sinU2 red_cosU2 sub mul RealNum].
    replace ((lo - lo) * DEG2RAD) with 0 by ring.
    cbn [vincentyLoop]. unfold vincentyBody.
    cbn [add sub mul div neg fromZ strictEq Math_sin Math_cos Math_sqrt Math_pow RealNum].
    rewrite !Re_pow_two, sin_0, cos_0.
    match goal with
    | |- context [sqrt ?v] => replace v with 0 by ring
    end.
    rewrite sqrt_0, Re_eqb_refl. reflexivity. }
  split; [ exact Hloop | ].
  destruct (vincentyDistance_cases la lo la lo ellipsoid)
    as [[El Er] | [(v & El & _) | (v & r & El & _)]]; fold q in El.
  - exact Er.
  - rewrite Hloop in El. discriminate.
  - rewrite Hloop in El. discriminate.
Qed.

(** With both points on the equator the body maps [lambda] to
    [L + f * lambda], and [sigma] is [lambda]. *)
Lemma body_equator (fv Lv : R) (k : nat) (u : R) :
  0 < u < PI / 2 ->
  vincentyBody (num := RealNum) fv Lv 0 1 0 1 k u =
  Some {| sinSigma := sin u; cosSigma := cos u; sigma := u; sinAlpha := 1;
          cos2Alpha := 0; cos2SigmaM := 0; lambda := Lv + fv * u; iterLimit := k |}.
Proof.
  intros Hu.
  assert (Hs : 0 < sin u) by (apply sin_gt_0; assert (HP := PI_RGT_0); lra).
  unfold vincentyBody.
  cbn [add sub mul div neg fromZ strictEq Math_sin Math_cos Math_sqrt Math_pow
       Math_atan2 RealNum].
  rewrite !Re_pow_two.
  replace (sqrt (1 * sin u * (1 * sin u) +
                 (1 * 0 - 0 * 1 * cos u) * (1 * 0 - 0 * 1 * cos u)))
    with (sin u).
  2:{ replace (1 * sin u * (1 * sin u) +
               (1 * 0 - 0 * 1 * cos u) * (1 * 0 - 0 * 1 * cos u))
        with (sin u * sin u) by ring.
      symmetry. apply sqrt_square. lra. }
  rewrite (Re_eqb_neq (sin u) 0) by lra.
  replace (0 * 0 + 1 * 1 * cos u) with (cos u) by ring.
  rewrite (atan2_sin_cos u Hu).
  replace (1 * 1 * sin u / sin u) with 1 by (field; lra).
  replace (1 - 1 * 1) with 0 by ring.
  rewrite (Re_eqb_refl 0). cbn [negb].
  f_equal. f_equal. ring.
Qed.

Lemma loop_moving (fv Lv : R) (n : nat) (u : R) :
  0 < u < PI / 2 -> Rabs (Lv + fv * u - u) > 1 / 1000000000000 ->
  vincentyLoop (num := RealNum) fv Lv 0 1 0 1 (S n) u =
  vincentyLoop (num := RealNum) fv Lv 0 1 0 1 n (Lv + fv * u).
Proof.
  intros Hu Hgt. cbn [vincentyLoop]. rewrite (body_equator fv Lv _ u Hu).
  cbn [lambda]. unfold notConverged.
  cbn [gt sub dec Math_abs RealNum]. eval_pow10.
  unfold Re.gtb. destruct (Rgt_dec _ _); [ reflexivity | contradiction ].
Qed.

Lemma loop_done (fv Lv : R) (n : nat) (u : R) :
  0 < u < PI / 2 -> ~ Rabs (Lv + fv * u - u) > 1 / 1000000000000 ->
  vincentyLoop (num := RealNum) fv Lv 0 1 0 1 n u =
  Done {| sinSigma := sin u; cosSigma := cos u; sigma := u; sinAlpha := 1;
          cos2Alpha := 0; cos2SigmaM := 0; lambda := Lv + fv * u;
          iterLimit := S n |}.
Proof.
  intros Hu Hgt.
  destruct n; cbn [vincentyLoop]; rewrite (body_equator fv Lv _ u Hu);
    cbn [lambda]; unfold notConverged;
    cbn [gt sub dec Math_abs RealNum]; eval_pow10;
    unfold Re.gtb; (destruct (Rgt_dec _ _); [ contradiction | reflexivity ]).
Qed.

(** C3.  In real arithmetic, [inverse(0,0, 0,1, WGS84)] converges in its
    fifth round and returns the distance 111319.4907932 m (to a
    micrometre), the forward azimuth 90 and, as [azimuth21], 90 as well:
    the azimuth of the geodesic continued through the second point.  The
    azimuth from the second point back to the first, 270, is not what is
    returned. *)
Theorem vincentyDistance_equator_real :
  exists r : GeodesicResult R,
    vincentyDistance (num := RealNum) (fromZ 0) (fromZ 0) (fromZ 0) (fromZ 1) WGS84 =
      Some r /\
    azimuth12 r = 90 /\ azimuth21 r = 90 /\
    Rabs (distance r - 1113194907932 / 10000000) <= 1 / 1000000.
Proof.
  assert (HP := PI_bounds).
  unfold vincentyDistance, getEllipsoidParams, toRadians, toDegrees, DEG2RAD, RAD2DEG,
    WGS84.
  cbn [a b f ell_a ell_f add sub mul div neg fromZ dec
       Math_sin Math_cos Math_tan Math_atan Math_atan2 Math_PI RealNum].
  eval_pow10.
  rewrite !Rmult_0_l, tan_0, !Rmult_0_r, atan_0, sin_0, cos_0.
  replace ((1 - 0) * (PI / 180)) with (PI / 180) by ring.
  set (fv := 1 / (298257223563 / 1000000000)).
  do 4 (rewrite loop_moving;
          [ | unfold fv; split; lra | unfold fv; rewrite Rabs_pos_eq; lra ]).
  rewrite loop_done; [ | unfold fv; split; lra | unfold fv; rewrite Rabs_pos_eq; lra ].
  cbn [iterLimit Nat.eqb sinSigma cosSigma sigma cos2Alpha cos2SigmaM lambda].
  eexists. split; [ reflexivity | ].
  cbn [distance azimuth12 azimuth21].
  match goal with
  | |- context [sin ?u] =>
    assert (Hs : 0 < sin u) by (apply sin_gt_0; unfold fv; lra)
  end.
  split; [ | split ].
  - match goal with
    | |- Re.atan2 ?v ?w * _ = _ =>
      replace w with 0 by ring; rewrite (atan2_up v) by lra
    end.
    field. lra.
  - match goal with
    | |- Re.atan2 ?v ?w * _ = _ =>
      replace w with 0 by ring; rewrite (atan2_up v) by lra
    end.
    field. lra.
  - unfold fv. apply Rabs_le. split; lra.
Qed.

End VincentyReal.

(** ** Identical endpoints *)

(** C8.  With the two endpoints the same point, the first round of the
    loop finds [sinSigma === 0] and the call returns distance 0 and both
    azimuths 0: the loop is left by the return in its body, never through
    its counter.  In real arithmetic this holds for every point and every
    ellipsoid.  On binary64 it holds on every ellipsoid and under every
    [Math] library with the exact results at zero, for a finite longitude
    and a latitude whose reduced latitude has a finite [cos * sin] product
    (any library with values in [-1, 1] gives one). *)
Theorem vincentyDistance_identical_points :
  (forall (la lo : R) (ellipsoid : Ellipsoid R),
     let q := reduced (num := RealNum) la lo la lo ellipsoid in
     loopOf q 99 (red_L q) = Coincident /\
     vincentyDistance la lo la lo ellipsoid = Some zeroResult) /\
  (forall (M : MathLib) (la lo : float) (ellipsoid : Ellipsoid float),
     ExactAtZero M ->
     F.finite lo = true ->
     F.finite (PrimFloat.mul (Math_cos (reducedLatitude ellipsoid la))
                 (Math_sin (reducedLatitude ellipsoid la))) = true ->
     let q := reduced la lo la lo ellipsoid in
     loopOf q 99 (red_L q) = Coincident /\
     vincentyDistance la lo la lo ellipsoid = Some zeroResult).
Proof.
  split.
  - exact identical_points_real.
  - intros M. exact identical_points_binary64.
Qed.

(** ** Geodesic calls, under the reference library *)

Section ConcreteGeodesic.

#[local] Existing Instance RefMath.lib.
Import FloatFacts.
Local Open Scope float_scope.

Lemma RefMath_exact : ExactAtZero RefMath.lib.
Proof.
  split; [ reflexivity | reflexivity | ].
  intros v Hv. apply is_zero_spec in Hv. destruct Hv as [sg Hv].
  change (lib_pow v 2) with (v * v).
  apply Prim2SF_inj. rewrite FloatAxioms.mul_spec, Hv. now destruct sg.
Qed.

(** Near-antipodal endpoints: the iteration is still moving after each of
    its 100 rounds. *)
Lemma vincentyDistance_cap_returns_null_witness :
  vincentyDistance 0 0 0.5 179.7 WGS84 = None.
Proof.
  apply vincentyDistance_cap_returns_null.
  unfold stillMoving, lambdaAt. apply movingFrom_rounds.
  vm_compute. reflexivity.
Defined.

Lemma vincentyDistance_identical_points_witness :
  loopOf (reduced 41.0082 28.9784 41.0082 28.9784 WGS84) 99
    (red_L (reduced 41.0082 28.9784 41.0082 28.9784 WGS84)) = Coincident /\
  vincentyDistance 41.0082 28.9784 41.0082 28.9784 WGS84 = Some zeroResult.
Proof.
  apply (proj2 vincentyDistance_identical_points RefMath.lib 41.0082 28.9784 WGS84
           RefMath_exact);
    vm_compute; reflexivity.
Defined.

(** One degree of longitude along the equator, on binary64: the same
    distance and azimuths as in real arithmetic. *)
Example vincentyDistance_equator_binary64 :
  vincentyDistance 0 0 0 1 WGS84 =
    Some {| distance := 111319.4907932264; azimuth12 := 90; azimuth21 := 90 |}.
Proof. vm_compute. reflexivity. Qed.

End ConcreteGeodesic.

(** * Properties of the rest of the modules *)

(** ** The catalogs *)

Section CatalogFacts.

Context {T : Type} {num : JSNum T}.

(** The keys of the datum catalog. *)
Lemma own_DATUMS_keys (key : string) (D : Datum T) :
  own DATUMS key = Some D ->
  In key [ "WGS84"; "ITRF2014"; "ITRF2020"; "ETRS89"; "TUREF"; "ED50"; "ED50_Turkey";
           "NAD27"; "NAD83"; "OSGB36"; "Tokyo"; "Pulkovo1942"; "HD72" ].
Proof.
  unfold DATUMS, own.
  repeat match goal with
  | |- context [String.eqb ?k key] =>
    let E := fresh "E" in
    destruct (String.eqb k key) eqn:E;
      [ apply String.eqb_eq in E; subst key; intros _; cbn; tauto | ]
  end.
  discriminate.
Qed.

(** X1.  [getEllipsoidForDatum] finds an ellipsoid for every datum of the
    catalog but HD72, whose ellipsoid [GRS67] the ellipsoid catalog lacks;
    for HD72 and for every name that is not a catalog key (the names
    inherited from [Object.prototype] among them) it returns [null]. *)
Theorem getEllipsoidForDatum_null_iff (key : string) :
  getEllipsoidForDatum (T := T) key = None <->
  own (DATUMS (T := T)) key = None \/ key = "HD72".
Proof.
  unfold getEllipsoidForDatum, getDatum, DATUMS_at. split.
  - destruct (own DATUMS key) as [D | ] eqn:E; [ | now left ].
    intros Hn. right. pose proof (own_DATUMS_keys _ _ E) as Hin.
    cbn [In] in Hin.
    repeat (destruct Hin as [Hin | Hin];
            [ subst key; try reflexivity;
              cbv in E; injection E as <-; cbv in Hn; discriminate Hn | ]).
    contradiction.
  - intros [E | ->].
    + rewrite E. destruct (existsb _ _); reflexivity.
    + reflexivity.
Qed.

End CatalogFacts.

(** ** The registry of transformation parameters *)

Section RegistryFacts.

Context {T : Type} {num : JSNum T}.

(** X2.  Between two distinct names [getTransformationParams] returns
    [null] exactly when one of them resolves to nothing in the catalog
    object; with the two names equal it returns the seven zeros, whether
    the name is registered or not. *)
Theorem getTransformationParams_null_iff (fromDatum toDatum : string) :
  getTransformationParams (T := T) fromDatum fromDatum = Ok (Direct (Some zeroParams)) /\
  (fromDatum <> toDatum ->
   (getTransformationParams (T := T) fromDatum toDatum = Ok Null <->
    DATUMS_at (T := T) fromDatum = Undefined \/ DATUMS_at (T := T) toDatum = Undefined)).
Proof.
  split.
  - unfold getTransformationParams. now rewrite String.eqb_refl.
  - intros Hne. unfold getTransformationParams, getDatum.
    rewrite (proj2 (String.eqb_neq _ _) Hne).
    destruct (DATUMS_at fromDatum) as [ | D1 | ], (DATUMS_at toDatum) as [ | D2 | ];
      cbn [truthy negb orb ref_toWGS84];
      try (split; [ intros _; auto | reflexivity ]);
      (split; [ | intros [E | E]; discriminate E ]);
      destruct (String.eqb toDatum "WGS84"); try discriminate;
      destruct (String.eqb fromDatum "WGS84"); discriminate.
Qed.

End RegistryFacts.

(** ** The datum pipeline: errors and composition *)

Section PipelineMore.

Context {M : MathLib}.

Lemma WGS84_is_own : exists D : Datum float, DATUMS_at "WGS84" = Own D.
Proof. eexists. reflexivity. Qed.

Lemma mode_geographic (inputType : option string) :
  geographicMode inputType =
  String.eqb (match inputType with Some t => t | None => "geographic" end) "geographic".
Proof. destruct inputType; reflexivity. Qed.

(** X3.  A name inherited from [Object.prototype] (such as [toString]) is
    not rejected as an unknown datum: with two distinct names that both
    resolve, one of them to an inherited member, the call throws a
    [TypeError], in either mode. *)
Theorem transformDatum_inherited_name (coords : Coords) (fromDatum toDatum : string)
    (inputType : option string) :
  fromDatum <> toDatum ->
  DATUMS_at (T := float) fromDatum <> Undefined ->
  DATUMS_at (T := float) toDatum <> Undefined ->
  DATUMS_at (T := float) fromDatum = Inherited \/
  DATUMS_at (T := float) toDatum = Inherited ->
  transformDatum coords fromDatum toDatum inputType = Throw TypeError.
Proof.
  intros Hne H1 H2 Hin.
  assert (HW : forall key, DATUMS_at (T := float) key = Inherited ->
                 String.eqb key "WGS84" = false).
  { intros key E. destruct (String.eqb key "WGS84") eqn:EW; [ | reflexivity ].
    apply String.eqb_eq in EW. subst key. discriminate E. }
  unfold transformDatum, getTransformationParams, getDatum, ellipsoidOf.
  rewrite (proj2 (String.eqb_neq _ _) Hne).
  destruct (DATUMS_at fromDatum) as [ | D1 | ] eqn:E1; [ now contradiction H1 | | ];
    (destruct (DATUMS_at toDatum) as [ | D2 | ] eqn:E2; [ now contradiction H2 | | ]);
    try (destruct Hin as [Hin | Hin]; discriminate Hin);
    try rewrite (HW _ E1); try rewrite (HW _ E2);
    cbn [truthy negb orb ref_toWGS84 ref_ellipsoid bind withDefined].
  - destruct (String.eqb fromDatum "WGS84"); reflexivity.
  - destruct (String.eqb toDatum "WGS84"); cbn [bind withDefined];
      destruct (String.eqb _ "geographic"); reflexivity.
  - reflexivity.
Qed.

(** The ellipsoid of a catalog datum: every key but HD72 names one that
    the ellipsoid catalog has. *)
Lemma catalog_ellipsoid (key : string) (D : Datum float) :
  own DATUMS key = Some D ->
  (key = "HD72" /\ own ELLIPSOIDS (ellipsoid D) = @None (Ellipsoid float)) \/
  (key <> "HD72" /\ exists E : Ellipsoid float, own ELLIPSOIDS (ellipsoid D) = Some E).
Proof.
  intros HD. pose proof (own_DATUMS_keys _ _ HD) as Hin. cbn [In] in Hin.
  repeat (destruct Hin as [Hin | Hin];
          [ subst key; cbv in HD; injection HD as <-;
            first [ left; split; reflexivity
                  | right; split; [ discriminate | eexists; reflexivity ] ] | ]).
  contradiction.
Qed.

(** X4.  In geographic mode between two distinct registered datums the
    call throws a [TypeError] when HD72 is the source or the target,
    whatever the coordinate: HD72 names the ellipsoid [GRS67], which the
    ellipsoid catalog does not have.  Between any other two registered
    datums it throws nothing and returns geographic coordinates. *)
Theorem transformDatum_HD72_geographic (coords : Coords) (fromDatum toDatum : string)
    (D1 D2 : Datum float) (inputType : option string) :
  geographicMode inputType = true ->
  fromDatum <> toDatum ->
  own DATUMS fromDatum = Some D1 -> own DATUMS toDatum = Some D2 ->
  (fromDatum = "HD72" \/ toDatum = "HD72" ->
   transformDatum coords fromDatum toDatum inputType = Throw TypeError) /\
  (fromDatum <> "HD72" -> toDatum <> "HD72" ->
   exists g : LatLonH float,
     transformDatum coords fromDatum toDatum inputType = Ok (ofLatLonH g)).
Proof.
  intros Hm Hne H1 H2. rewrite mode_geographic in Hm.
  unfold transformDatum, getTransformationParams, getDatum, ellipsoidOf.
  rewrite Hm, (proj2 (String.eqb_neq _ _) Hne).
  rewrite (DATUMS_at_own _ _ H1), (DATUMS_at_own _ _ H2).
  cbn [truthy negb orb ref_toWGS84 ref_ellipsoid].
  destruct (catalog_ellipsoid _ _ H1) as [[K1 E1] | [K1 [E1 R1]]];
    destruct (catalog_ellipsoid _ _ H2) as [[K2 E2] | [K2 [E2 R2]]];
    rewrite ?E1, ?E2, ?R1, ?R2.
  - congruence.
  - split; [ intros _ | contradiction ].
    destruct (String.eqb toDatum "WGS84"); [ reflexivity | ].
    destruct (String.eqb fromDatum "WGS84"); reflexivity.
  - split; [ intros _ | contradiction ].
    destruct (String.eqb toDatum "WGS84"); [ reflexivity | ].
    destruct (String.eqb fromDatum "WGS84"); reflexivity.
  - split; [ intros [K | K]; contradiction | intros _ _ ].
    destruct (String.eqb toDatum "WGS84"); [ cbn; eauto | ].
    destruct (String.eqb fromDatum "WGS84"); cbn; eauto.
Qed.

(** X5.  In geocentric mode a transformation between two distinct
    registered datums throws nothing and returns Cartesian coordinates,
    HD72 included: no ellipsoid is consulted. *)
Theorem transformDatum_geocentric_total (coords : Coords) (fromDatum toDatum : string)
    (D1 D2 : Datum float) (inputType : option string) :
  geographicMode inputType = false ->
  fromDatum <> toDatum ->
  own DATUMS fromDatum = Some D1 -> own DATUMS toDatum = Some D2 ->
  exists r : XYZ float, transformDatum coords fromDatum toDatum inputType = Ok (ofXYZ r).
Proof.
  intros Hm Hne H1 H2. rewrite mode_geographic in Hm.
  unfold transformDatum, getTransformationParams, getDatum.
  rewrite Hm, (proj2 (String.eqb_neq _ _) Hne).
  rewrite (DATUMS_at_own _ _ H1), (DATUMS_at_own _ _ H2).
  cbn [truthy negb orb ref_toWGS84].
  destruct (String.eqb toDatum "WGS84"); [ cbn; eauto | ].
  destruct (String.eqb fromDatum "WGS84"); cbn; eauto.
Qed.

(** X6.  In geocentric mode the two-step transformation between two
    registered datums, neither of them WGS84, is the composition of the
    two single-step calls through WGS84, bit for bit. *)
Theorem transformDatum_via_hub (coords : Coords) (fromDatum toDatum : string)
    (D1 D2 : Datum float) (inputType : option string) :
  geographicMode inputType = false ->
  fromDatum <> toDatum -> fromDatum <> "WGS84" -> toDatum <> "WGS84" ->
  own DATUMS fromDatum = Some D1 -> own DATUMS toDatum = Some D2 ->
  transformDatum coords fromDatum toDatum inputType =
    (atHub <- transformDatum coords fromDatum "WGS84" inputType ;;
     transformDatum atHub "WGS84" toDatum inputType).
Proof.
  intros Hm Hne HF HT H1 H2. rewrite mode_geographic in Hm.
  assert (HT' : "WGS84" <> toDatum) by congruence.
  unfold transformDatum, getTransformationParams, getDatum.
  rewrite Hm, (proj2 (String.eqb_neq _ _) Hne), (proj2 (String.eqb_neq _ _) HF),
    (proj2 (String.eqb_neq _ _) HT), (proj2 (String.eqb_neq _ _) HT').
  rewrite (DATUMS_at_own _ _ H1), (DATUMS_at_own _ _ H2).
  rewrite String.eqb_refl.
  destruct WGS84_is_own as [W ->].
  cbn [truthy negb orb ref_toWGS84 bind withDefined].
  cbn [ofXYZ c_x c_y c_z toNumber bind].
  destruct (helmertTransformation _ (toWGS84 D1)) as [ux uy uz]. reflexivity.
Qed.

End PipelineMore.

(** ** Translation-only parameter sets on binary64 *)

Section TranslationFloat.

Context {M : MathLib}.
Import FloatFacts.
Local Open Scope float_scope.

Lemma same_nonzero (v w : float) :
  F.is_zero v = false -> same v w -> w = v.
Proof.
  intros Hz Hs. unfold same in Hs.
  destruct (Prim2SF v) as [sg | sg | | sg m e] eqn:E; try contradiction.
  - assert (Hz' : F.is_zero v = true) by (apply is_zero_spec; now exists sg).
    congruence.
  - exact Hs.
Qed.

(** X7.  With zero rotations and zero scale (as eleven of the thirteen catalog
    datums have them) the Helmert transformation of finite non-zero
    coordinates is one binary64 addition per component: the result is
    [(tx + X, ty + Y, tz + Z)] bit for bit. *)
Theorem helmertTransformation_translation (p : HelmertParams float) (px py pz : float) :
  F.is_zero (rx p) = true -> F.is_zero (ry p) = true -> F.is_zero (rz p) = true ->
  F.is_zero (s p) = true ->
  F.finite px = true -> F.finite py = true -> F.finite pz = true ->
  F.is_zero px = false -> F.is_zero py = false -> F.is_zero pz = false ->
  helmertTransformation {| x := px; y := py; z := pz |} p =
    {| x := tx p + px; y := ty p + py; z := tz p + pz |}.
Proof.
  intros Hrx Hry Hrz Hs Fx Fy Fz Nx Ny Nz.
  destruct p as [ptx pty ptz prx pry prz ps]. cbn [tx ty tz rx ry rz s] in *.
  apply is_zero_spec in Hrx, Hry, Hrz, Hs.
  cbn [helmertTransformation x y z add sub mul neg fromZ FloatNum].
  change (F.ofZ 1) with 1.
  rewrite (one_add_zero _ (zero_mul_l _ _ Hs micro_finite)).
  rewrite !mul_one_l.
  assert (Hrx' := zero_mul_l _ _ Hrx ARCSEC2RAD_finite).
  assert (Hry' := zero_mul_l _ _ Hry ARCSEC2RAD_finite).
  assert (Hrz' := zero_mul_l _ _ Hrz ARCSEC2RAD_finite).
  assert (Ex : px - prz * ARCSEC2RAD * py + pry * ARCSEC2RAD * pz = px).
  { apply same_nonzero; [ exact Nx | ].
    apply same_add_zero; [ | now apply zero_mul_l ].
    apply same_sub_zero; [ now apply same_refl | now apply zero_mul_l ]. }
  assert (Ey : prz * ARCSEC2RAD * px + py - prx * ARCSEC2RAD * pz = py).
  { apply same_nonzero; [ exact Ny | ].
    apply same_sub_zero; [ | now apply zero_mul_l ].
    apply same_zero_add; [ now apply same_refl | now apply zero_mul_l ]. }
  assert (Ez : - (pry * ARCSEC2RAD) * px + prx * ARCSEC2RAD * py + pz = pz).
  { apply same_nonzero; [ exact Nz | ].
    apply same_zero_add; [ now apply same_refl | ].
    apply zero_add; [ | now apply zero_mul_l ].
    apply zero_mul_l; [ now apply zero_opp | exact Fx ]. }
  now rewrite Ex, Ey, Ez.
Qed.

End TranslationFloat.

(** Unfolding the real instance of the number operations. *)
Ltac real_ops :=
  cbn [add sub mul div neg fromZ dec gt lt strictEq Math_PI Math_abs Math_sqrt
       Math_sin Math_cos Math_tan Math_atan Math_atan2 Math_pow RealNum
       gte Math_floor remainder RealNumExt].

(** ** Angles, in real arithmetic *)

Section AngleFacts.

Local Open Scope R_scope.

(** X8.  In real arithmetic the two angle conversions are inverse to each
    other. *)
Theorem degrees_radians_round_trip (v : R) :
  toDegrees (num := RealNum) (toRadians v) = v /\
  toRadians (num := RealNum) (toDegrees v) = v.
Proof.
  assert (HP := PI_RGT_0).
  unfold toDegrees, toRadians, DEG2RAD, RAD2DEG. real_ops.
  split; field; lra.
Qed.

Lemma floor_bounds (u : R) : IZR (Int_part u) <= u < IZR (Int_part u) + 1.
Proof. destruct (base_Int_part u). lra. Qed.

Lemma Int_part_range (u : R) (lo hi : Z) :
  IZR lo <= u < IZR hi -> (lo <= Int_part u < hi)%Z.
Proof.
  intros [Hlo Hhi]. destruct (floor_bounds u) as [H1 H2]. split.
  - apply Z.lt_succ_r. apply lt_IZR. rewrite succ_IZR. lra.
  - apply lt_IZR. lra.
Qed.

(** X9.  In real arithmetic [decimalToDMS] returns whole degrees and whole
    minutes: the degrees are the integer part of the magnitude, the
    minutes lie in 0..59 and the seconds in [0, 60). *)
Theorem decimalToDMS_ranges (decimal : R) (isLatitude : option bool) :
  let r := decimalToDMS (num := RealNum) decimal isLatitude in
  exists dg mi : Z,
    degrees r = IZR dg /\ minutes r = IZR mi /\
    (0 <= dg)%Z /\ (0 <= mi <= 59)%Z /\
    0 <= seconds r < 60 /\
    IZR dg <= Rabs decimal < IZR dg + 1.
Proof.
  unfold decimalToDMS. real_ops. cbv zeta. cbn [degrees minutes seconds].
  unfold RealExt.floor.
  set (A := Rabs decimal).
  assert (HA : 0 <= A) by apply Rabs_pos.
  destruct (floor_bounds A) as [D1 D2].
  set (dg := Int_part A) in *.
  set (mf := (A - IZR dg) * 60).
  assert (Hmf : IZR 0 <= mf < IZR 60) by (unfold mf; split; lra).
  destruct (floor_bounds mf) as [M1 M2].
  pose proof (Int_part_range mf 0 60 Hmf) as Hmi.
  exists dg, (Int_part mf).
  repeat split; try lra; try lia.
  apply (Int_part_range A 0 (dg + 1)). rewrite plus_IZR. lra.
Qed.

(** X10.  In real arithmetic [dmsToDecimal] undoes [decimalToDMS], for a
    latitude and for a longitude: the direction letter carries the sign. *)
Theorem dms_round_trip (decimal : R) (isLatitude : option bool) :
  let r := decimalToDMS (num := RealNum) decimal isLatitude in
  dmsToDecimal (degrees r) (minutes r) (seconds r) (direction r) = decimal.
Proof.
  unfold dmsToDecimal, decimalToDMS. real_ops. cbv zeta.
  cbn [degrees minutes seconds direction].
  unfold RealExt.floor, RealExt.geb.
  set (A := Rabs decimal).
  assert (HA : 0 <= A) by apply Rabs_pos.
  assert (Hdg : (0 <= Int_part A)%Z).
  { destruct (floor_bounds A) as [_ D2].
    apply (Int_part_range A 0 (Int_part A + 1)). rewrite plus_IZR. lra. }
  rewrite (Rabs_pos_eq (IZR (Int_part A))) by (apply IZR_le; exact Hdg).
  destruct (Rge_dec decimal 0) as [Hp | Hn].
  - assert (EA : decimal = A) by (unfold A; rewrite Rabs_pos_eq; lra).
    clearbody A. subst decimal.
    destruct isLatitude as [[ | ] | ]; cbn [String.eqb Ascii.eqb Bool.eqb orb]; field.
  - assert (EA : decimal = - A) by (unfold A; rewrite Rabs_left; lra).
    clearbody A. subst decimal.
    destruct isLatitude as [[ | ] | ]; cbn [String.eqb Ascii.eqb Bool.eqb orb]; field.
Qed.

End AngleFacts.

(** ** Degrees, minutes and seconds on binary64 *)

Section DMSFloat.

Context {M : MathLib}.

Lemma abs_opp (v : float) : PrimFloat.abs (PrimFloat.opp v) = PrimFloat.abs v.
Proof.
  apply Prim2SF_inj. rewrite !FloatAxioms.abs_spec, FloatAxioms.opp_spec.
  now destruct (Prim2SF v).
Qed.

(** X11.  [dmsToDecimal] ignores the sign of the degrees: only the direction
    letter [S] or [W] makes the result negative.  On binary64, bit for
    bit. *)
Theorem dmsToDecimal_sign_of_degrees (deg mi sec : float) (dir : string) :
  dmsToDecimal (PrimFloat.opp deg) mi sec dir = dmsToDecimal deg mi sec dir.
Proof.
  unfold dmsToDecimal. cbn [Math_abs FloatNum]. now rewrite abs_opp.
Qed.

End DMSFloat.

(** ** The two-argument arctangent *)

Section Atan2Facts.

Local Open Scope R_scope.

Lemma atan2_right (v w : R) : 0 < w -> Re.atan2 v w = atan (v / w).
Proof. intros Hw. unfold Re.atan2. destruct (Rlt_dec 0 w); [ reflexivity | contradiction ]. Qed.



Lemma atan2_origin : Re.atan2 0 0 = 0.
Proof.
  unfold Re.atan2. destruct (Rlt_dec 0 0); [ lra | ]. reflexivity.
Qed.

Lemma atan2_down (v : R) : v < 0 -> Re.atan2 v 0 = - (PI / 2).
Proof.
  intros Hv. unfold Re.atan2.
  destruct (Rlt_dec 0 0); [ lra | ].
  destruct (Rlt_dec 0 v); [ lra | ]. destruct (Rlt_dec v 0); [ field | contradiction ].
Qed.

(** The angle of the point [(r cos t, r sin t)] is [t], for [t] in
    (-pi, pi]. *)
Lemma atan2_polar (r t : R) :
  0 < r -> - PI < t <= PI -> Re.atan2 (r * sin t) (r * cos t) = t.
Proof.
  intros Hr [Hlo Hhi]. assert (HP := PI_RGT_0).
  destruct (Rlt_dec t (- (PI / 2))) as [H1 | H1].
  - (* third quadrant *)
    assert (Hc : cos (t + PI) > 0) by (apply cos_gt_0; lra).
    assert (Hs : sin (t + PI) > 0) by (apply sin_gt_0; lra).
    rewrite neg_cos in Hc. rewrite neg_sin in Hs.
    unfold Re.atan2.
    destruct (Rlt_dec 0 (r * cos t)); [ nra | ].
    destruct (Rlt_dec (r * cos t) 0); [ | nra ].
    destruct (Rle_dec 0 (r * sin t)); [ nra | ].
    replace (r * sin t / (r * cos t)) with (tan (t + PI)).
    + rewrite atan_tan by lra. ring.
    + unfold tan. rewrite neg_sin, neg_cos. field. split; lra.
  - destruct (Rlt_dec t (PI / 2)) as [H2 | H2].
    + destruct (Req_dec t (- (PI / 2))) as [E | E].
      * subst t. rewrite sin_neg, cos_neg, sin_PI2, cos_PI2.
        replace (r * 0) with 0 by ring. apply atan2_down. lra.
      * assert (Hc : 0 < cos t) by (apply cos_gt_0; lra).
        rewrite atan2_right by nra.
        replace (r * sin t / (r * cos t)) with (tan t)
          by (unfold tan; field; split; lra).
        apply atan_tan. lra.
    + destruct (Req_dec t (PI / 2)) as [E | E].
      * subst t. rewrite sin_PI2, cos_PI2.
        replace (r * 0) with 0 by ring. apply atan2_up. lra.
      * assert (Hc : cos t < 0) by (apply cos_lt_0; lra).
        assert (Hs : 0 <= sin t) by (apply sin_ge_0; lra).
        assert (Es : sin t = - sin (t - PI)).
        { rewrite <- neg_sin. f_equal. ring. }
        assert (Ec : cos t = - cos (t - PI)).
        { rewrite <- neg_cos. f_equal. ring. }
        unfold Re.atan2.
        destruct (Rlt_dec 0 (r * cos t)); [ nra | ].
        destruct (Rlt_dec (r * cos t) 0); [ | nra ].
        destruct (Rle_dec 0 (r * sin t)); [ | nra ].
        replace (r * sin t / (r * cos t)) with (tan (t - PI)).
        -- rewrite atan_tan by lra. ring.
        -- unfold tan. rewrite Es, Ec. field. split; lra.
Qed.

End Atan2Facts.

(** ** The ellipsoid, in real arithmetic *)

Section EllipsoidFacts.

Local Open Scope R_scope.

Lemma catalog_oblate (key : string) (E : Ellipsoid R) :
  own ELLIPSOIDS key = Some E -> oblate E.
Proof.
  unfold ELLIPSOIDS, own.
  repeat match goal with
  | |- context [String.eqb ?k key] =>
    destruct (String.eqb k key);
      [ intros [= <-]; unfold oblate, WGS84; cbn [ell_a ell_f]; real_ops; eval_pow10;
        lra | ]
  end.
  discriminate.
Qed.

(** The flattenings of the catalog lie below 1/200. *)
Lemma catalog_flattening (key : string) (E : Ellipsoid R) :
  own ELLIPSOIDS key = Some E -> ell_f E <= 1 / 200.
Proof.
  unfold ELLIPSOIDS, own.
  repeat match goal with
  | |- context [String.eqb ?k key] =>
    destruct (String.eqb k key);
      [ intros [= <-]; unfold WGS84; cbn [ell_f]; real_ops; eval_pow10; lra | ]
  end.
  discriminate.
Qed.

Variable ellipsoid : Ellipsoid R.
Hypothesis Hob : oblate ellipsoid.

Let P := getEllipsoidParams ellipsoid.

Lemma one_minus_e2 : 1 - e2 P = (1 - f P) * (1 - f P).
Proof. unfold P, getEllipsoidParams. cbn [e2 f]. real_ops. ring. Qed.

Lemma e2_range : 0 < e2 P < 1.
Proof.
  destruct Hob as (Ha & Hf0 & Hf1).
  assert (E := one_minus_e2). change (f P) with (ell_f ellipsoid) in E.
  split; nra.
Qed.

Lemma sqrt_one_minus_e2 : sqrt (1 - e2 P) = 1 - f P.
Proof.
  destruct Hob as (Ha & Hf0 & Hf1).
  rewrite one_minus_e2. apply sqrt_square. change (f P) with (ell_f ellipsoid). lra.
Qed.

Lemma semi_axes : 0 < b P < a P.
Proof.
  destruct Hob as (Ha & Hf0 & Hf1).
  change (b P) with (ell_a ellipsoid * (1 - ell_f ellipsoid)).
  change (a P) with (ell_a ellipsoid). split; nra.
Qed.

(** X12.  For an oblate ellipsoid the derived parameters are those of its
    meridian ellipse: [0 < b < a], [0 < e2 < 1] with
    [e2 = (a^2 - b^2)/a^2] and [e^2 = e2], [ep2 = (a^2 - b^2)/b^2] with
    [ep^2 = ep2], and [c = a^2/b] exceeds [a]. *)
Theorem getEllipsoidParams_identities :
  0 < b P < a P /\
  0 < e2 P < 1 /\
  e2 P = (a P * a P - b P * b P) / (a P * a P) /\
  e P * e P = e2 P /\
  ep2 P = (a P * a P - b P * b P) / (b P * b P) /\
  ep P * ep P = ep2 P /\
  a P < c P.
Proof.
  destruct Hob as (Ha & Hf0 & Hf1). destruct e2_range as [He0 He1].
  assert (Hb : b P = a P * (1 - f P)) by reflexivity.
  assert (E := one_minus_e2).
  change (a P) with (ell_a ellipsoid) in *. change (f P) with (ell_f ellipsoid) in *.
  assert (Hb0 : 0 < b P) by (rewrite Hb; nra).
  assert (Hep : ep2 P = e2 P / (1 - e2 P)) by reflexivity.
  assert (Hep0 : 0 <= ep2 P).
  { rewrite Hep. apply Rlt_le, Rdiv_lt_0_compat; lra. }
  repeat split.
  - exact Hb0.
  - rewrite Hb. nra.
  - exact He0.
  - exact He1.
  - rewrite Hb. field_simplify_eq; [ nra | lra ].
  - change (e P) with (sqrt (e2 P)). apply sqrt_sqrt. lra.
  - rewrite Hep, Hb. field_simplify_eq; [ nra | split; nra ].
  - change (ep P) with (sqrt (ep2 P)). apply sqrt_sqrt. exact Hep0.
  - change (c P) with (ell_a ellipsoid * ell_a ellipsoid / b P). rewrite Hb.
    apply Rmult_lt_reg_r with (ell_a ellipsoid * (1 - ell_f ellipsoid)); [ nra | ].
    replace (ell_a ellipsoid * ell_a ellipsoid / (ell_a ellipsoid * (1 - ell_f ellipsoid)) *
             (ell_a ellipsoid * (1 - ell_f ellipsoid)))
      with (ell_a ellipsoid * ell_a ellipsoid) by (field; split; lra).
    assert (0 < ell_a ellipsoid * ell_f ellipsoid) by nra. nra.
Qed.

(** [W^2 = 1 - e2 sin^2] lies in [[1 - e2, 1]], and [W] in [[1 - f, 1]]. *)
Lemma W_range (u : R) :
  let W := sqrt (1 - e2 P * sin u * sin u) in
  W * W = 1 - e2 P * sin u * sin u /\ 1 - f P <= W <= 1 /\ 0 < W.
Proof.
  intros W. destruct Hob as (Ha & Hf0 & Hf1). destruct e2_range as [He0 He1].
  assert (Hs : 0 <= sin u * sin u <= 1).
  { pose proof (SIN_bound u) as [S1 S2]. split; nra. }
  assert (Hw : 0 <= 1 - e2 P * sin u * sin u) by nra.
  assert (HW : W * W = 1 - e2 P * sin u * sin u) by (apply sqrt_sqrt; exact Hw).
  assert (HW0 : 0 <= W) by apply sqrt_pos.
  assert (E := one_minus_e2). change (f P) with (ell_f ellipsoid) in *.
  split; [ exact HW | ]. split; [ split | ]; nra.
Qed.

(** X13.  For an oblate ellipsoid and every latitude the radii of curvature
    are ordered: [a (1 - e2) <= M <= meanRadius <= N <= c], with [a <= N]. *)
Theorem radii_of_curvature_ordered (latitude : R) :
  let N := radiusOfCurvatureN latitude ellipsoid in
  let M := radiusOfCurvatureM latitude ellipsoid in
  a P * (1 - e2 P) <= M /\ M <= meanRadius latitude ellipsoid /\
  meanRadius latitude ellipsoid <= N /\ a P <= N /\ N <= c P.
Proof.
  intros N M.
  destruct Hob as (Ha & Hf0 & Hf1). destruct e2_range as [He0 He1].
  destruct (W_range latitude) as (HW & [HWlo HWhi] & HW0).
  assert (E := one_minus_e2).
  assert (Hs : 0 <= sin latitude * sin latitude <= 1).
  { pose proof (SIN_bound latitude) as [S1 S2]. split; nra. }
  unfold meanRadius. fold N M.
  unfold N, M, radiusOfCurvatureN, radiusOfCurvatureM. fold P. real_ops.
  set (W := sqrt (1 - e2 P * sin latitude * sin latitude)) in *.
  change (a P) with (ell_a ellipsoid) in *. change (f P) with (ell_f ellipsoid) in *.
  set (av := ell_a ellipsoid) in *. set (fv := ell_f ellipsoid) in *.
  assert (HW3 : 0 < W * W * W) by (repeat apply Rmult_lt_0_compat; exact HW0).
  assert (HMN : av * (1 - e2 P) / (W * W * W) <= av / W).
  { apply Rmult_le_reg_r with (W * W * W); [ exact HW3 | ].
    replace (av * (1 - e2 P) / (W * W * W) * (W * W * W)) with (av * (1 - e2 P))
      by (field; lra).
    replace (av / W * (W * W * W)) with (av * (W * W)) by (field; lra).
    apply Rmult_le_compat_l; [ lra | ]. rewrite HW.
    assert (e2 P * (sin latitude * sin latitude) <= e2 P * 1)
      by (apply Rmult_le_compat_l; lra).
    lra. }
  assert (HM0 : 0 < av * (1 - e2 P) / (W * W * W)).
  { apply Rdiv_lt_0_compat; [ nra | exact HW3 ]. }
  assert (HN0 : 0 < av / W) by (apply Rdiv_lt_0_compat; lra).
  set (Mv := av * (1 - e2 P) / (W * W * W)) in *. set (Nv := av / W) in *.
  split; [ | split; [ | split; [ | split ] ] ].
  - unfold Mv. apply Rmult_le_reg_r with (W * W * W); [ exact HW3 | ].
    replace (av * (1 - e2 P) / (W * W * W) * (W * W * W)) with (av * (1 - e2 P))
      by (field; lra).
    assert (HW2 : W * W <= 1) by nra.
    assert (HW31 : W * W * W <= 1) by nra.
    assert (HX : 0 < av * (1 - e2 P)) by nra.
    nra.
  - rewrite <- (sqrt_square Mv) at 1 by lra. apply sqrt_le_1_alt. nra.
  - rewrite <- (sqrt_square Nv) at 2 by lra. apply sqrt_le_1_alt. nra.
  - unfold Nv. apply Rmult_le_reg_r with W; [ exact HW0 | ].
    replace (av / W * W) with av by (field; lra). nra.
  - unfold Nv. change (c P) with (av * av / (av * (1 - fv))).
    apply Rmult_le_reg_r with (W * (av * (1 - fv)));
      [ apply Rmult_lt_0_compat; [ lra | apply Rmult_lt_0_compat; lra ] | ].
    replace (av / W * (W * (av * (1 - fv)))) with (av * av * (1 - fv)) by (field; lra).
    replace (av * av / (av * (1 - fv)) * (W * (av * (1 - fv)))) with (av * av * W)
      by (field; split; lra).
    apply Rmult_le_compat_l; [ nra | lra ].
Qed.

(** X14.  For an oblate ellipsoid the point computed for height 0 satisfies
    the equation of the ellipsoid, [(X^2 + Y^2)/a^2 + Z^2/b^2 = 1], at
    every latitude and longitude. *)
Theorem geographicToGeocentric_on_ellipsoid (latitude longitude : R) :
  ellipsoidEquation ellipsoid
    (geographicToGeocentric (num := RealNum) latitude longitude 0 ellipsoid) = 1.
Proof.
  destruct Hob as (Ha & Hf0 & Hf1). destruct e2_range as [He0 He1].
  unfold ellipsoidEquation, geographicToGeocentric. fold P. cbn [x y z]. real_ops.
  destruct (W_range (toRadians (num := RealNum) latitude)) as (HW & [HWlo HWhi] & HW0).
  set (u := toRadians (num := RealNum) latitude) in *.
  set (v := toRadians (num := RealNum) longitude).
  set (W := sqrt (1 - e2 P * sin u * sin u)) in *.
  assert (E := one_minus_e2).
  assert (Hb : b P = a P * (1 - f P)) by reflexivity.
  rewrite Hb.
  change (a P) with (ell_a ellipsoid) in *. change (f P) with (ell_f ellipsoid) in *.
  set (av := ell_a ellipsoid) in *. set (fv := ell_f ellipsoid) in *.
  assert (Hsc : sin u * sin u + cos u * cos u = 1).
  { pose proof (sin2_cos2 u) as Hu. unfold Rsqr in Hu. lra. }
  assert (Hsc' : sin v * sin v + cos v * cos v = 1).
  { pose proof (sin2_cos2 v) as Hv. unfold Rsqr in Hv. lra. }
  assert (Hpos : 0 < 1 - e2 P * sin u * sin u) by (rewrite <- HW; nra).
  transitivity ((cos u * cos u * (sin v * sin v + cos v * cos v) +
                 (1 - e2 P) * (sin u * sin u)) / (W * W)).
  - rewrite E. field. repeat split; lra.
  - rewrite Hsc', HW.
    replace (cos u * cos u) with (1 - sin u * sin u) by lra.
    field. lra.
Qed.

(** X15.  The point computed for the height [h] lies at the distance [|h|]
    from the point computed for height 0 at the same latitude and
    longitude: the height is measured along a unit vector. *)
Theorem geographicToGeocentric_height_offset (latitude longitude height : R) :
  distance2 (geographicToGeocentric (num := RealNum) latitude longitude height ellipsoid)
            (geographicToGeocentric (num := RealNum) latitude longitude 0 ellipsoid) =
  height * height.
Proof.
  unfold distance2, geographicToGeocentric. fold P. cbn [x y z]. real_ops.
  set (u := toRadians (num := RealNum) latitude).
  set (v := toRadians (num := RealNum) longitude).
  set (N := a P / sqrt (1 - e2 P * sin u * sin u)).
  assert (Hsc : sin u * sin u + cos u * cos u = 1).
  { pose proof (sin2_cos2 u) as Hu. unfold Rsqr in Hu. lra. }
  assert (Hsc' : sin v * sin v + cos v * cos v = 1).
  { pose proof (sin2_cos2 v) as Hv. unfold Rsqr in Hv. lra. }
  transitivity (height * height *
                (cos u * cos u * (sin v * sin v + cos v * cos v) + sin u * sin u)).
  - ring.
  - rewrite Hsc'. replace (cos u * cos u * 1 + sin u * sin u) with 1 by lra. ring.
Qed.

End EllipsoidFacts.

(** ** Geographic and geocentric coordinates, in real arithmetic *)

Section ConversionFacts.

Local Open Scope R_scope.

Variable ellipsoid : Ellipsoid R.
Hypothesis Hob : oblate ellipsoid.

Let P := getEllipsoidParams ellipsoid.

Lemma toRadians_range (d lo hi : R) :
  lo < d <= hi -> lo * (PI / 180) < toRadians (num := RealNum) d <= hi * (PI / 180).
Proof.
  intros [H1 H2]. assert (HP := PI_RGT_0).
  unfold toRadians, DEG2RAD. real_ops. split; nra.
Qed.

(** X16.  For an oblate ellipsoid, a latitude strictly between the poles, a
    longitude in (-180, 180] and a height above [-a], converting to
    geocentric coordinates and back returns the longitude exactly. *)
Theorem round_trip_longitude (latitude longitude height : R) :
  -90 < latitude < 90 -> -180 < longitude <= 180 -> - a P < height ->
  lon (roundTrip latitude longitude height ellipsoid) = longitude.
Proof.
  intros [Hl1 Hl2] Hlon Hh. assert (HP := PI_RGT_0).
  destruct Hob as (Ha & Hf0 & Hf1).
  unfold roundTrip, geocentricToGeographic, geographicToGeocentric. fold P.
  cbn [x y z lon]. real_ops.
  set (u := toRadians (num := RealNum) latitude).
  set (v := toRadians (num := RealNum) longitude).
  destruct (W_range ellipsoid Hob u) as (HW & [HWlo HWhi] & HW0). fold P in HW, HWlo, HWhi, HW0.
  set (W := sqrt (1 - e2 P * sin u * sin u)) in *.
  assert (Hu : - (PI / 2) < u < PI / 2).
  { unfold u, toRadians, DEG2RAD. real_ops. split; nra. }
  assert (Hv : - PI < v <= PI).
  { unfold v, toRadians, DEG2RAD. real_ops. destruct Hlon. split; nra. }
  assert (Hc : 0 < cos u) by (apply cos_gt_0; lra).
  assert (HN : a P <= a P / W).
  { apply Rmult_le_reg_r with W; [ exact HW0 | ].
    replace (a P / W * W) with (a P) by (field; lra).
    change (a P) with (ell_a ellipsoid). nra. }
  rewrite atan2_polar; [ | nra | exact Hv ].
  unfold v, toDegrees, toRadians, DEG2RAD, RAD2DEG. real_ops. field. lra.
Qed.

Lemma Re_pow_three (u : R) : Re.pow u 3 = u * u * u.
Proof.
  unfold Re.pow. destruct (Req_dec_T 3 2); [ lra | ].
  destruct (Req_dec_T 3 3); [ reflexivity | contradiction ].
Qed.

Lemma Re_ltb_true (u v : R) : u < v -> Re.ltb u v = true.
Proof. intros H. unfold Re.ltb. destruct (Rlt_dec u v); [ reflexivity | contradiction ]. Qed.


Lemma Re_gtb_true (u v : R) : v < u -> Re.gtb u v = true.
Proof. intros H. unfold Re.gtb. destruct (Rgt_dec u v); [ reflexivity | lra ]. Qed.

Lemma Re_gtb_false (u v : R) : u <= v -> Re.gtb u v = false.
Proof. intros H. unfold Re.gtb. destruct (Rgt_dec u v); [ lra | reflexivity ]. Qed.

(** A round of the refinement that finds its own latitude again stops. *)
Lemma refineLatitude_stop (n : nat) (av ev zv pv phi : R) :
  Re.atan2 (zv + ev * (av / sqrt (1 - ev * sin phi * sin phi)) * sin phi) pv = phi ->
  refineLatitude (num := RealNum) (S n) av ev zv pv phi = phi.
Proof.
  intros E. cbn [refineLatitude]. real_ops. rewrite E.
  replace (phi - phi) with 0 by ring. rewrite Rabs_R0.
  rewrite Re_ltb_true; [ reflexivity | eval_pow10; lra ].
Qed.


(** The conversion, from the values of its intermediate variables. *)
Lemma geocentricToGeographic_from (px py pz lam p th phi0 phi : R) :
  Re.atan2 py px = lam ->
  sqrt (px * px + py * py) = p ->
  Re.atan2 (pz * a P) (p * b P) = th ->
  Re.atan2 (pz + ep2 P * b P * Re.pow (sin th) 3)
           (p - e2 P * a P * Re.pow (cos th) 3) = phi0 ->
  refineLatitude (num := RealNum) 10 (a P) (e2 P) pz p phi0 = phi ->
  geocentricToGeographic (num := RealNum) px py pz ellipsoid =
  {| lat := toDegrees phi; lon := toDegrees lam;
     h := if Re.gtb (Rabs (cos phi)) (1 / 10000000000)
          then p / cos phi - a P / sqrt (1 - e2 P * sin phi * sin phi)
          else Rabs pz / Rabs (sin phi) -
               a P / sqrt (1 - e2 P * sin phi * sin phi) * (1 - e2 P) |}.
Proof.
  intros <- <- <- <- <-. unfold geocentricToGeographic. fold P. real_ops.
  eval_pow10. reflexivity.
Qed.

Lemma toDegrees_PI2 : toDegrees (num := RealNum) (PI / 2) = 90.
Proof.
  assert (HP := PI_RGT_0). unfold toDegrees, RAD2DEG. real_ops. field. lra.
Qed.

Lemma toDegrees_0 : toDegrees (num := RealNum) 0 = 0.
Proof. unfold toDegrees. real_ops. ring. Qed.

Lemma toDegrees_opp (u : R) :
  toDegrees (num := RealNum) (- u) = - toDegrees (num := RealNum) u.
Proof. unfold toDegrees. real_ops. ring. Qed.

(** The polar radius: [N (1 - e2)] at the pole is [b]. *)
Lemma polar_height : a P / sqrt (1 - e2 P * 1 * 1) * (1 - e2 P) = b P.
Proof.
  destruct Hob as (Ha & Hf0 & Hf1).
  replace (1 - e2 P * 1 * 1) with (1 - e2 P) by ring.
  pose proof (sqrt_one_minus_e2 ellipsoid Hob) as Hs. fold P in Hs. rewrite Hs.
  pose proof (one_minus_e2 ellipsoid) as E. fold P in E. rewrite E.
  change (b P) with (a P * (1 - f P)). change (f P) with (ell_f ellipsoid).
  field. lra.
Qed.

(** On the polar axis north of the centre. *)
Lemma polar_axis_north (pz : R) :
  0 < pz ->
  geocentricToGeographic (num := RealNum) 0 0 pz ellipsoid =
    {| lat := 90; lon := 0; h := pz - b P |}.
Proof.
  intros Hz.
  assert (HP := PI_RGT_0).
  destruct (semi_axes ellipsoid Hob) as [Hb0 Hba].
  destruct (e2_range ellipsoid Hob) as [He0 He1].
  fold P in Hb0, Hba, He0, He1.
  assert (Ha : 0 < a P) by lra.
  assert (Hep0 : 0 < ep2 P).
  { change (ep2 P) with (e2 P / (1 - e2 P)). apply Rdiv_lt_0_compat; lra. }
  assert (Hs1 : 0 < sqrt (1 - e2 P * 1 * 1)).
  { apply sqrt_lt_R0. lra. }
  assert (Hp : sqrt (0 * 0 + 0 * 0) = 0).
  { replace (0 * 0 + 0 * 0) with 0 by ring. apply sqrt_0. }
  rewrite (geocentricToGeographic_from 0 0 pz 0 0 (PI / 2) (PI / 2) (PI / 2)).
  - rewrite toDegrees_PI2, toDegrees_0, cos_PI2, sin_PI2, Rabs_R0, Rabs_R1.
    rewrite Re_gtb_false by lra. rewrite polar_height.
    rewrite (Rabs_pos_eq pz) by lra. f_equal. field.
  - apply atan2_origin.
  - exact Hp.
  - replace (0 * b P) with 0 by ring. apply atan2_up. nra.
  - rewrite !Re_pow_three, sin_PI2, cos_PI2.
    replace (0 - e2 P * a P * (0 * 0 * 0)) with 0 by ring.
    apply atan2_up. nra.
  - apply refineLatitude_stop. rewrite sin_PI2. apply atan2_up.
    assert (0 < e2 P * (a P / sqrt (1 - e2 P * 1 * 1)) * 1).
    { rewrite Rmult_1_r. apply Rmult_lt_0_compat; [ lra | ].
      apply Rdiv_lt_0_compat; lra. }
    lra.
Qed.

(** On the polar axis south of the centre. *)
Lemma polar_axis_south (pz : R) :
  pz < 0 ->
  geocentricToGeographic (num := RealNum) 0 0 pz ellipsoid =
    {| lat := -90; lon := 0; h := - pz - b P |}.
Proof.
  intros Hz.
  assert (HP := PI_RGT_0).
  destruct (semi_axes ellipsoid Hob) as [Hb0 Hba].
  destruct (e2_range ellipsoid Hob) as [He0 He1].
  fold P in Hb0, Hba, He0, He1.
  assert (Ha : 0 < a P) by lra.
  assert (Hep0 : 0 < ep2 P).
  { change (ep2 P) with (e2 P / (1 - e2 P)). apply Rdiv_lt_0_compat; lra. }
  assert (Hs1 : 0 < sqrt (1 - e2 P * 1 * 1)).
  { apply sqrt_lt_R0. lra. }
  assert (Hp : sqrt (0 * 0 + 0 * 0) = 0).
  { replace (0 * 0 + 0 * 0) with 0 by ring. apply sqrt_0. }
  rewrite (geocentricToGeographic_from 0 0 pz 0 0 (- (PI / 2)) (- (PI / 2))
             (- (PI / 2))).
  - rewrite toDegrees_opp, toDegrees_PI2, toDegrees_0, cos_neg, sin_neg, cos_PI2,
      sin_PI2, Rabs_R0, Rabs_Ropp, Rabs_R1.
    rewrite Re_gtb_false by lra.
    replace (1 - e2 P * - (1) * - (1)) with (1 - e2 P * 1 * 1) by ring.
    rewrite polar_height.
    rewrite (Rabs_left pz) by lra. f_equal. field.
  - apply atan2_origin.
  - exact Hp.
  - replace (0 * b P) with 0 by ring. apply atan2_down. nra.
  - rewrite !Re_pow_three, sin_neg, cos_neg, sin_PI2, cos_PI2.
    replace (0 - e2 P * a P * (0 * 0 * 0)) with 0 by ring.
    apply atan2_down. nra.
  - apply refineLatitude_stop. rewrite sin_neg, sin_PI2. apply atan2_down.
    replace (1 - e2 P * - (1) * - (1)) with (1 - e2 P * 1 * 1) by ring.
    assert (0 < e2 P * (a P / sqrt (1 - e2 P * 1 * 1)) * 1).
    { rewrite Rmult_1_r. apply Rmult_lt_0_compat; [ lra | ].
      apply Rdiv_lt_0_compat; lra. }
    lra.
Qed.

(** X17.  On the polar axis ([X = Y = 0]) north of the centre the
    conversion returns latitude 90, longitude 0 and the height [Z - b];
    south of the centre, latitude -90, longitude 0 and [-Z - b]. *)
Theorem geocentricToGeographic_polar_axis (pz : R) :
  (0 < pz ->
   geocentricToGeographic (num := RealNum) 0 0 pz ellipsoid =
     {| lat := 90; lon := 0; h := pz - b P |}) /\
  (pz < 0 ->
   geocentricToGeographic (num := RealNum) 0 0 pz ellipsoid =
     {| lat := -90; lon := 0; h := - pz - b P |}).
Proof.
  split; intros Hz; [ now apply polar_axis_north | now apply polar_axis_south ].
Qed.





End ConversionFacts.

(** ** The Molodensky transformation, in real arithmetic *)

Section MolodenskyFacts.

Local Open Scope R_scope.

Variable ellipsoid : Ellipsoid R.
Hypothesis Hob : oblate ellipsoid.

Let P := getEllipsoidParams ellipsoid.

(** [w^1.5] for [w] in (0, 1]. *)
Lemma pow_three_halves (w : R) : 0 < w <= 1 -> 0 < Re.pow w (15 / 10) <= 1.
Proof.
  intros [H0 H1]. unfold Re.pow.
  destruct (Req_dec_T (15 / 10) 2); [ lra | ].
  destruct (Req_dec_T (15 / 10) 3); [ lra | ].
  unfold Rpower. split; [ apply exp_pos | ].
  rewrite <- exp_0. destruct (Rle_lt_or_eq_dec w 1 H1) as [Hlt | ->].
  - apply Rlt_le, exp_increasing.
    assert (Hl : ln w < 0) by (rewrite <- ln_1; now apply ln_increasing).
    nra.
  - rewrite ln_1, Rmult_0_r. lra.
Qed.

(** X21.  With the same ellipsoid on both sides and a zero shift the
    Molodensky transformation returns its input: for an oblate ellipsoid,
    a latitude strictly between the poles and a height above
    [-a (1 - e2)], where the two divisors [Rm + h] and [(Rn + h) cos(phi)]
    of the source are positive. *)
Theorem molodenskyTransformation_identity (latitude longitude height : R) :
  -90 < latitude < 90 -> - (a P * (1 - e2 P)) < height ->
  let phi := toRadians (num := RealNum) latitude in
  let w := 1 - e2 P * sin phi * sin phi in
  0 < a P * (1 - e2 P) / Re.pow w (15 / 10) + height /\
  0 < (a P / sqrt w + height) * cos phi /\
  molodenskyTransformation (num := RealNum) latitude longitude height
    ellipsoid ellipsoid {| dx := 0; dy := 0; dz := 0 |} =
  {| lat := latitude; lon := longitude; h := height |}.
Proof.
  intros [Hl1 Hl2] Hh phi w. assert (HP := PI_RGT_0).
  destruct (semi_axes ellipsoid Hob) as [Hb0 Hba].
  destruct (e2_range ellipsoid Hob) as [He0 He1].
  fold P in Hb0, Hba, He0, He1.
  assert (Ha : 0 < a P) by lra.
  destruct (W_range ellipsoid Hob phi) as (HW & [HWlo HWhi] & HW0).
  fold P in HW, HWlo, HWhi, HW0. fold w in HW, HWlo, HWhi, HW0.
  assert (Hw : 0 < w <= 1).
  { rewrite <- HW. split; nra. }
  destruct (pow_three_halves w Hw) as [Hp0 Hp1].
  assert (Hphi : - (PI / 2) < phi < PI / 2).
  { unfold phi, toRadians, DEG2RAD. real_ops. split; nra. }
  assert (Hc : 0 < cos phi) by (apply cos_gt_0; lra).
  assert (HX : 0 < a P * (1 - e2 P)) by nra.
  assert (HRm : a P * (1 - e2 P) <= a P * (1 - e2 P) / Re.pow w (15 / 10)).
  { apply Rmult_le_reg_r with (Re.pow w (15 / 10)); [ exact Hp0 | ].
    replace (a P * (1 - e2 P) / Re.pow w (15 / 10) * Re.pow w (15 / 10))
      with (a P * (1 - e2 P)) by (field; lra).
    nra. }
  assert (HRn : a P <= a P / sqrt w).
  { apply Rmult_le_reg_r with (sqrt w); [ exact HW0 | ].
    replace (a P / sqrt w * sqrt w) with (a P) by (field; lra). nra. }
  split; [ lra | ]. split; [ apply Rmult_lt_0_compat; [ nra | exact Hc ] | ].
  unfold molodenskyTransformation. fold P. cbn [dx dy dz]. real_ops. eval_pow10.
  unfold toDegrees. real_ops.
  f_equal; unfold Rdiv; ring.
Qed.

End MolodenskyFacts.

(** ** The geodesic along the equator, in real arithmetic *)

Section EquatorFacts.

Local Open Scope R_scope.

Variables fv Lv : R.

Lemma body_on_equator (k : nat) (u : R) :
  0 < u < PI ->
  vincentyBody (num := RealNum) fv Lv 0 1 0 1 k u = Some (equatorVars fv Lv u k).
Proof.
  intros Hu.
  assert (Hs : 0 < sin u) by (apply sin_gt_0; lra).
  unfold vincentyBody, equatorVars. real_ops. rewrite !Re_pow_two.
  replace (sqrt (1 * sin u * (1 * sin u) +
                 (1 * 0 - 0 * 1 * cos u) * (1 * 0 - 0 * 1 * cos u)))
    with (sin u).
  2:{ replace (1 * sin u * (1 * sin u) +
               (1 * 0 - 0 * 1 * cos u) * (1 * 0 - 0 * 1 * cos u))
        with (sin u * sin u) by ring.
      symmetry. apply sqrt_square. lra. }
  rewrite (Re_eqb_neq (sin u) 0) by lra.
  replace (0 * 0 + 1 * 1 * cos u) with (cos u) by ring.
  replace (Re.atan2 (sin u) (cos u)) with u.
  2:{ rewrite <- (atan2_polar 1 u) at 1 by lra. now rewrite !Rmult_1_l. }
  replace (1 * 1 * sin u / sin u) with 1 by (field; lra).
  replace (1 - 1 * 1) with 0 by ring.
  rewrite (Re_eqb_refl 0). cbn [negb].
  f_equal. f_equal. ring.
Qed.

Hypothesis Hf : 0 < fv < 1.
Hypothesis Hfix : Lv / (1 - fv) < PI.

(** The loop on the equator: from [u] below the fixed point [L / (1 - f)]
    of the recurrence, with the next step [d = L + f u - u] so small that
    [d f^m] is within the tolerance, the loop is left through its
    condition within [m + 1] rounds, its counter not exhausted. *)
Lemma loop_on_equator (m n : nat) (u : R) :
  (m <= n)%nat ->
  0 < u <= Lv / (1 - fv) ->
  (Lv + fv * u - u) * fv ^ m <= 1 / 1000000000000 ->
  exists (w : R) (limit : nat),
    0 < w <= Lv / (1 - fv) /\ Lv + fv * w - w <= 1 / 1000000000000 /\
    limit <> O /\
    vincentyLoop (num := RealNum) fv Lv 0 1 0 1 n u = Done (equatorVars fv Lv w limit).
Proof.
  revert n u. induction m as [ | m IH]; intros n u Hmn Hu Hd.
  - exists u, (S n). split; [ exact Hu | ]. split; [ cbn [pow] in Hd; lra | ].
    split; [ discriminate | ].
    assert (Hfp : (1 - fv) * (Lv / (1 - fv)) = Lv) by (field; lra).
    assert (Hge : 0 <= Lv + fv * u - u) by nra.
    destruct n; cbn [vincentyLoop]; rewrite body_on_equator by lra;
      cbn [equatorVars lambda]; unfold notConverged; real_ops; eval_pow10;
      (rewrite Re_gtb_false; [ reflexivity | ]);
      rewrite Rabs_pos_eq by lra; cbn [pow] in Hd; lra.
  - assert (Hfp : (1 - fv) * (Lv / (1 - fv)) = Lv) by (field; lra).
    assert (Hge : 0 <= Lv + fv * u - u) by nra.
    destruct (Rle_dec (Lv + fv * u - u) (1 / 1000000000000)) as [Hsmall | Hbig].
    + exists u, (S n). split; [ exact Hu | ]. split; [ exact Hsmall | ].
      split; [ discriminate | ].
      destruct n; cbn [vincentyLoop]; rewrite body_on_equator by lra;
        cbn [equatorVars lambda]; unfold notConverged; real_ops; eval_pow10;
        (rewrite Re_gtb_false; [ reflexivity | ]);
        rewrite Rabs_pos_eq by lra; lra.
    + destruct n as [ | n]; [ lia | ].
      destruct (IH n (Lv + fv * u)) as (w & limit & Hw & Hdw & Hlim & Hloop).
      * lia.
      * split; [ nra | ].
        apply Rmult_le_reg_l with (1 - fv); [ lra | ]. rewrite Hfp. nra.
      * replace (Lv + fv * (Lv + fv * u) - (Lv + fv * u))
          with ((Lv + fv * u - u) * fv) by ring.
        rewrite Rmult_assoc. exact Hd.
      * exists w, limit. split; [ exact Hw | ]. split; [ exact Hdw | ].
        split; [ exact Hlim | ].
        rewrite <- Hloop. cbn [vincentyLoop]. rewrite body_on_equator by lra.
        cbn [equatorVars lambda]. unfold notConverged. real_ops. eval_pow10.
        rewrite Re_gtb_true; [ reflexivity | ].
        rewrite Rabs_pos_eq by lra. lra.
Qed.

End EquatorFacts.

Section EquatorGeodesic.

Local Open Scope R_scope.

(** X22.  Two points on the equator, the second up to 179 degrees east of
    the first, on an oblate ellipsoid with a flattening of at most 1/200
    (those of the catalog are below 1/293): the loop converges, the
    distance returned is the equatorial arc [a * L] to within [a * 1e-12]
    (some micrometres), [L] being the longitude difference in radians,
    and both azimuths are returned as 90 degrees. *)
Theorem vincentyDistance_along_equator (ellipsoid : Ellipsoid R) (lon1 lon2 : R) :
  oblate ellipsoid -> ell_f ellipsoid <= 1 / 200 ->
  0 < lon2 - lon1 <= 179 ->
  exists r : GeodesicResult R,
    vincentyDistance (num := RealNum) 0 lon1 0 lon2 ellipsoid = Some r /\
    azimuth12 r = 90 /\ azimuth21 r = 90 /\
    ell_a ellipsoid * toRadians (num := RealNum) (lon2 - lon1) -
      ell_a ellipsoid / 1000000000000 <= distance r <=
    ell_a ellipsoid * toRadians (num := RealNum) (lon2 - lon1).
Proof.
  intros (Ha & Hf0 & Hf1) Hf [Hd0 Hd1].
  assert (HP := Enclosure.PI_bounds).
  unfold vincentyDistance, getEllipsoidParams.
  cbn [a b f]. real_ops.
  set (av := ell_a ellipsoid) in *. set (fv := ell_f ellipsoid) in *.
  assert (E0 : toRadians (num := RealNum) 0 = 0) by (unfold toRadians; real_ops; ring).
  rewrite E0, tan_0, Rmult_0_r, atan_0, sin_0, cos_0.
  set (Lv := toRadians (num := RealNum) (lon2 - lon1)).
  assert (HL : 0 < Lv <= 179 * (PI / 180)).
  { unfold Lv, toRadians, DEG2RAD. real_ops. split; nra. }
  assert (Hfix : Lv / (1 - fv) < PI).
  { apply Rmult_lt_reg_r with (1 - fv); [ lra | ].
    replace (Lv / (1 - fv) * (1 - fv)) with Lv by (field; lra). nra. }
  assert (Hfp : (1 - fv) * (Lv / (1 - fv)) = Lv) by (field; lra).
  assert (Hpow : fv ^ 6 <= (1 / 200) ^ 6) by (apply pow_incr; lra).
  destruct (loop_on_equator fv Lv (conj Hf0 Hf1) Hfix 5 99 Lv)
    as (w & limit & [Hw0 Hw1] & Hdw & Hlim & Hloop).
  { lia. }
  { split; [ lra | ]. apply Rmult_le_reg_l with (1 - fv); [ lra | ]. rewrite Hfp. nra. }
  { replace ((Lv + fv * Lv - Lv) * fv ^ 5) with (fv ^ 6 * Lv) by ring.
    apply Rle_trans with ((1 / 200) ^ 6 * Lv).
    - apply Rmult_le_compat_r; lra.
    - replace ((1 / 200) ^ 6) with (1 / 64000000000000) by field. lra. }
  rewrite Hloop. unfold equatorVars. cbn [iterLimit].
  destruct limit as [ | limit]; [ contradiction | ]. cbn [Nat.eqb].
  cbn [sinSigma cosSigma sigma cos2Alpha cos2SigmaM lambda].
  eexists. split; [ reflexivity | ].
  cbn [distance azimuth12 azimuth21].
  assert (Hlam : 0 < Lv + fv * w < PI).
  { assert ((1 - fv) * w <= Lv) by (rewrite <- Hfp; apply Rmult_le_compat_l; lra).
    split; [ nra | ].
    apply Rle_lt_trans with (Lv / (1 - fv)); [ | exact Hfix ].
    apply Rmult_le_reg_l with (1 - fv); [ lra | ]. rewrite Hfp. nra. }
  assert (Hs : 0 < sin (Lv + fv * w)) by (apply sin_gt_0; lra).
  assert (Haz : toDegrees (num := RealNum) (PI / 2) = 90) by apply toDegrees_PI2.
  split; [ | split ].
  - replace (1 * 0 - 0 * 1 * cos (Lv + fv * w)) with 0 by ring.
    rewrite atan2_up by lra. exact Haz.
  - replace (- 0 * 1 + 1 * 0 * cos (Lv + fv * w)) with 0 by ring.
    rewrite atan2_up by lra. exact Haz.
  - match goal with
    | |- _ <= ?d <= _ => replace d with (av * ((1 - fv) * w)) by (unfold Rdiv; ring)
    end.
    assert (H1 : (1 - fv) * w <= Lv) by (rewrite <- Hfp; apply Rmult_le_compat_l; lra).
    assert (H2 : Lv - 1 / 1000000000000 <= (1 - fv) * w) by lra.
    split.
    + replace (av * Lv - av / 1000000000000) with (av * (Lv - 1 / 1000000000000))
        by field.
      apply Rmult_le_compat_l; lra.
    + apply Rmult_le_compat_l; lra.
Qed.

End EquatorGeodesic.

(** ** UTM zones, in real arithmetic *)

Section ZoneFacts.

Local Open Scope R_scope.

(** The remainder of a non-negative dividend lies in [[0, v)] and differs
    from the dividend by a multiple of the divisor. *)
Lemma rem_nonneg (u v : R) :
  0 <= u -> 0 < v ->
  exists k : Z, RealExt.rem u v = u - v * IZR k /\ 0 <= RealExt.rem u v < v.
Proof.
  intros Hu Hv. unfold RealExt.rem, RealExt.trunc.
  assert (Hq : 0 <= u / v) by (apply Rmult_le_pos; [ lra | apply Rlt_le, Rinv_0_lt_compat; lra ]).
  destruct (Rle_dec 0 (u / v)); [ | contradiction ].
  exists (Int_part (u / v)). split; [ reflexivity | ].
  destruct (floor_bounds (u / v)) as [F1 F2].
  assert (E : u = v * (u / v)) by (field; lra).
  apply Rmult_le_compat_l with (r := v) in F1; [ | lra ].
  apply Rmult_lt_compat_l with (r := v) in F2; [ | lra ].
  split; lra.
Qed.

(** The remainder of any dividend lies in [(-v, v)]. *)
Lemma rem_any (u v : R) :
  0 < v ->
  exists k : Z, RealExt.rem u v = u - v * IZR k /\ - v < RealExt.rem u v < v.
Proof.
  intros Hv. destruct (Rle_dec 0 u) as [Hu | Hu].
  - destruct (rem_nonneg u v Hu Hv) as (k & E & H1 & H2). exists k. split; [ exact E | lra ].
  - assert (Hq : u / v < 0).
    { apply Rmult_lt_reg_r with v; [ exact Hv | ].
      replace (u / v * v) with u by (field; lra). lra. }
    unfold RealExt.rem, RealExt.trunc.
    destruct (Rle_dec 0 (u / v)); [ lra | ].
    exists (- Int_part (- (u / v)))%Z. rewrite opp_IZR. split; [ reflexivity | ].
    destruct (floor_bounds (- (u / v))) as [F1 F2].
    assert (E : u = v * (u / v)) by (field; lra).
    apply Rmult_le_compat_l with (r := v) in F1; [ | lra ].
    apply Rmult_lt_compat_l with (r := v) in F2; [ | lra ].
    split; lra.
Qed.

(** The normalisation of [getUTMZone]: the value in [[0, 360)] that
    differs from [longitude + 180] by a multiple of 360. *)
Lemma normalised_longitude (longitude : R) :
  exists k : Z,
    RealExt.rem (RealExt.rem (longitude + 180) 360 + 360) 360 =
      longitude + 180 - 360 * IZR k /\
    0 <= RealExt.rem (RealExt.rem (longitude + 180) 360 + 360) 360 < 360.
Proof.
  destruct (rem_any (longitude + 180) 360) as (k1 & E1 & H1); [ lra | ].
  destruct (rem_nonneg (RealExt.rem (longitude + 180) 360 + 360) 360)
    as (k2 & E2 & H2); [ lra | lra | ].
  exists (k1 + k2 - 1)%Z. split; [ | exact H2 ].
  rewrite E2, E1, minus_IZR, plus_IZR. ring.
Qed.

(** X23.  For every longitude [getUTMZone] of the projection module returns
    a whole zone number in 1..60, that of the 6-degree band which holds
    the longitude brought into [[-180, 180)] by a multiple of 360. *)
Theorem getUTMZone_band (longitude : R) :
  exists n k : Z,
    Projections.getUTMZone (num := RealNum) longitude = IZR n /\
    (1 <= n <= 60)%Z /\
    -180 + 6 * (IZR n - 1) <= longitude - 360 * IZR k < -180 + 6 * IZR n.
Proof.
  destruct (normalised_longitude longitude) as (k & E & H1 & H2).
  unfold Projections.getUTMZone. real_ops. unfold RealExt.floor.
  set (m := RealExt.rem (RealExt.rem (longitude + 180) 360 + 360) 360) in *.
  replace ((m - 180 + 180) / 6) with (m / 6) by field.
  destruct (floor_bounds (m / 6)) as [F1 F2].
  assert (Hr : (0 <= Int_part (m / 6) < 60)%Z) by (apply Int_part_range; lra).
  exists (Int_part (m / 6) + 1)%Z, k.
  rewrite plus_IZR. split; [ reflexivity | ]. split; [ lia | ]. lra.
Qed.

(** For a longitude in [[-180, 180)] the normalisation changes nothing. *)
Lemma zone_in_range (longitude : R) :
  -180 <= longitude < 180 ->
  Projections.getUTMZone (num := RealNum) longitude =
  IZR (Int_part ((longitude + 180) / 6)) + 1.
Proof.
  intros Hl.
  destruct (normalised_longitude longitude) as (k & E & H1 & H2).
  assert (Hk : k = 0%Z).
  { assert (K1 : -1 < IZR k) by lra. assert (K2 : IZR k < 1) by lra.
    apply lt_IZR in K1, K2. lia. }
  subst k.
  unfold Projections.getUTMZone. real_ops. unfold RealExt.floor.
  rewrite E. do 2 f_equal. f_equal. field.
Qed.

(** X24.  The transformation module has a [getUTMZone] of its own, without
    the normalisation.  The two agree on [[-180, 180)]; from 180 on the
    transformation module's returns 61 or more, and below -180 it returns
    0 or less. *)
Theorem getUTMZone_unnormalised (longitude : R) :
  (-180 <= longitude < 180 ->
   getUTMZone (num := RealNum) longitude =
   Projections.getUTMZone (num := RealNum) longitude) /\
  (180 <= longitude -> 61 <= getUTMZone (num := RealNum) longitude) /\
  (longitude < -180 -> getUTMZone (num := RealNum) longitude <= 0).
Proof.
  unfold getUTMZone. real_ops. unfold RealExt.floor.
  destruct (floor_bounds ((longitude + 180) / 6)) as [F1 F2].
  split; [ | split ].
  - intros Hl. symmetry. apply zone_in_range. exact Hl.
  - intros Hl.
    assert (H : (60 <= Int_part ((longitude + 180) / 6))%Z).
    { apply Z.lt_succ_r. apply lt_IZR. rewrite succ_IZR. lra. }
    apply IZR_le in H. lra.
  - intros Hl.
    assert (H : (Int_part ((longitude + 180) / 6) < 0)%Z) by (apply lt_IZR; lra).
    assert (H' : (Int_part ((longitude + 180) / 6) <= -1)%Z) by lia.
    apply IZR_le in H'. lra.
Qed.

End ZoneFacts.

(** ** The table of UTM zones *)

Lemma In_countFrom (n : nat) (lo v : Z) :
  (lo <= v < lo + Z.of_nat n)%Z -> In v (countFrom lo n).
Proof.
  revert lo. induction n as [ | n IH]; intros lo Hv; [ lia | ].
  cbn [countFrom In]. destruct (Z.eq_dec lo v) as [E | E]; [ now left | right ].
  apply IH. lia.
Qed.

Section ZoneTable.

Local Open Scope R_scope.

Lemma zoneAt_hit (cnt : nat) (lo n : Z) :
  (lo <= n < lo + Z.of_nat cnt)%Z ->
  Projections.zoneAt (num := RealNum)
    (map (fun v => (v, Projections.utmZone v)) (countFrom lo cnt)) (IZR n) =
  Some (Projections.utmZone n).
Proof.
  revert lo. induction cnt as [ | cnt IH]; intros lo Hn; [ lia | ].
  cbn [countFrom map Projections.zoneAt]. real_ops. unfold Re.eqb.
  destruct (Req_dec_T (IZR lo) (IZR n)) as [E | E].
  - apply eq_IZR in E. now subst lo.
  - apply IH. assert (lo <> n) by (intros ->; now apply E). lia.
Qed.

(** X25.  For a longitude in [[-180, 180)] the zone number [getUTMZone]
    returns is a key of the table built by [generateUTMZones], and the
    entry's bounds hold the longitude: [west <= longitude < east], the
    central meridian being at most 3 degrees away. *)
Theorem utm_zone_holds_longitude (longitude : R) :
  -180 <= longitude < 180 ->
  exists entry : Projections.UTMZone R,
    Projections.zoneAt Projections.generateUTMZones
      (Projections.getUTMZone (num := RealNum) longitude) = Some entry /\
    Projections.west (Projections.bounds entry) <= longitude <
      Projections.east (Projections.bounds entry) /\
    Rabs (longitude - Projections.centralMeridian entry) <= 3.
Proof.
  intros Hl. rewrite (zone_in_range longitude Hl).
  destruct (floor_bounds ((longitude + 180) / 6)) as [F1 F2].
  assert (Hr : (0 <= Int_part ((longitude + 180) / 6) < 60)%Z)
    by (apply Int_part_range; lra).
  set (q := Int_part ((longitude + 180) / 6)) in *.
  exists (Projections.utmZone (q + 1)). split.
  - rewrite <- plus_IZR. unfold Projections.generateUTMZones.
    apply zoneAt_hit. cbn. lia.
  - cbn [Projections.utmZone Projections.bounds Projections.west Projections.east
         Projections.centralMeridian].
    real_ops. rewrite plus_IZR. split; [ split; lra | apply Rabs_le; lra ].
Qed.

End ZoneTable.

(** ** The coordinate systems registered with proj4 *)

Section RegistryOfSystems.

Context {T : Type} {num : JSNum T}.

Lemma registeredAs_spec (crs definition : string) :
  registeredAs crs definition = true -> own proj4Defs crs = Some definition.
Proof.
  unfold registeredAs. destruct (own proj4Defs crs) as [d | ]; [ | discriminate ].
  intros E. apply String.eqb_eq in E. now subst d.
Qed.

(** The 120 names of the UTM loop, looked up one by one. *)
Lemma utm_codes_checked :
  forallb (fun v =>
    registeredAs (getUTMEPSG v (Some true))
      (Projections.proj4North (Projections.utmZone (T := T) v)) &&
    registeredAs (getUTMEPSG v (Some false))
      (Projections.proj4South (Projections.utmZone (T := T) v)))
    (countFrom 1 60) = true.
Proof. vm_compute. reflexivity. Qed.

(** X26.  For every zone 1..60 and either hemisphere the name
    [getUTMEPSG] builds is one the transformation module registered with
    [proj4.defs], and its definition is the string the zone table of the
    projection module holds for that zone and hemisphere. *)
Theorem getUTMEPSG_registered (zone : Z) (isNorth : option bool) :
  (1 <= zone <= 60)%Z ->
  own proj4Defs (getUTMEPSG zone isNorth) =
  Some (if match isNorth with Some v => v | None => true end
        then Projections.proj4North (Projections.utmZone (T := T) zone)
        else Projections.proj4South (Projections.utmZone (T := T) zone)).
Proof.
  intros Hz.
  pose proof utm_codes_checked as Hall.
  rewrite forallb_forall in Hall.
  specialize (Hall zone (In_countFrom 60 1 zone ltac:(lia))).
  apply andb_prop in Hall. destruct Hall as [HN HS].
  apply registeredAs_spec in HN, HS.
  destruct isNorth as [[ | ] | ]; assumption.
Qed.

End RegistryOfSystems.

(** X27.  Every projection the panel offers leads to a registered
    coordinate system: for each value of [PROJECTION_OPTIONS], every zone
    1..60, every hemisphere and every datum, the name [getProjectionCRS]
    returns is one the transformation module registered with [proj4.defs]. *)
Theorem getProjectionCRS_registered (projection : string) (utmZone : Z)
    (hemisphere datum : string) :
  In projection PROJECTION_OPTIONS ->
  (1 <= utmZone <= 60)%Z ->
  exists definition : string,
    own proj4Defs (getProjectionCRS projection utmZone hemisphere datum) = Some definition.
Proof.
  intros Hin Hz. cbn [PROJECTION_OPTIONS In] in Hin.
  destruct Hin as [<- | Hin].
  - change (getProjectionCRS "UTM" utmZone hemisphere datum)
      with (getUTMEPSG utmZone (Some (String.eqb hemisphere "N"))).
    pose proof (utm_codes_checked (T := R)) as Hall.
    rewrite forallb_forall in Hall.
    specialize (Hall utmZone (In_countFrom 60 1 utmZone ltac:(lia))).
    apply andb_prop in Hall. destruct Hall as [HN HS].
    apply registeredAs_spec in HN, HS.
    destruct (String.eqb hemisphere "N"); eexists; [ exact HN | exact HS ].
  - repeat (destruct Hin as [<- | Hin]; [ eexists; vm_compute; reflexivity | ]).
    contradiction.
Qed.

(** ** Heights and the geoid, in real arithmetic *)

Section HeightFacts.

Local Open Scope R_scope.

(** In real arithmetic the two height conversions are inverse to each
    other for the same undulation. *)
Lemma height_round_trip (height undulation : R) :
  orthometricToEllipsoidal (num := RealNum)
    (ellipsoidalToOrthometric height undulation) undulation = height /\
  ellipsoidalToOrthometric (num := RealNum)
    (orthometricToEllipsoidal height undulation) undulation = height.
Proof.
  unfold orthometricToEllipsoidal, ellipsoidalToOrthometric. real_ops. split; ring.
Qed.

Lemma product_in_unit (u v : R) : -1 <= u <= 1 -> 0 <= v <= 1 -> -1 <= u * v <= 1.
Proof. intros Hu Hv. split; nra. Qed.

Lemma product_of_units (u v : R) : -1 <= u <= 1 -> -1 <= v <= 1 -> -1 <= u * v <= 1.
Proof. intros Hu Hv. split; nra. Qed.

(** X28.  The approximate geoid undulation lies between -56.4 m and
    +25.6 m everywhere; it is an even function of the longitude and has
    the period 180 degrees in it. *)
Theorem approximateGeoidUndulation_range (latitude longitude : R) :
  -564 / 10 <= Geoid.approximateGeoidUndulation (num := RealNum) latitude longitude
            <= 256 / 10 /\
  Geoid.approximateGeoidUndulation (num := RealNum) latitude (- longitude) =
    Geoid.approximateGeoidUndulation (num := RealNum) latitude longitude /\
  Geoid.approximateGeoidUndulation (num := RealNum) latitude (longitude + 180) =
    Geoid.approximateGeoidUndulation (num := RealNum) latitude longitude.
Proof.
  assert (HP := PI_RGT_0).
  unfold Geoid.approximateGeoidUndulation. real_ops. eval_pow10.
  set (u := latitude * PI / 180).
  split; [ | split ].
  - set (v := longitude * PI / 180).
    pose proof (SIN_bound u) as Hs. pose proof (COS_bound u) as Hc.
    pose proof (COS_bound (2 * v)) as Hc2. pose proof (SIN_bound (3 * u)) as Hs3.
    pose proof (COS_bound (4 * v)) as Hc4. pose proof (COS_bound (2 * u)) as Hc2u.
    assert (Hss : 0 <= sin u * sin u <= 1) by (split; nra).
    assert (Hcc : 0 <= cos u * cos u <= 1) by (split; nra).
    pose proof (product_in_unit _ _ Hc2 Hcc) as H1.
    pose proof (product_of_units _ _ Hc4 Hc2u) as H2.
    replace (16 * cos (2 * v) * cos u * cos u) with (16 * (cos (2 * v) * (cos u * cos u)))
      by ring.
    replace (8 * cos (4 * v) * cos (2 * u)) with (8 * (cos (4 * v) * cos (2 * u))) by ring.
    replace (14 * sin u * sin u) with (14 * (sin u * sin u)) by ring.
    split; lra.
  - replace (2 * (- longitude * PI / 180)) with (- (2 * (longitude * PI / 180))) by field.
    replace (4 * (- longitude * PI / 180)) with (- (4 * (longitude * PI / 180))) by field.
    now rewrite !cos_neg.
  - replace (2 * ((longitude + 180) * PI / 180))
      with (2 * (longitude * PI / 180) + 2 * INR 1 * PI) by (cbn [INR]; field).
    replace (4 * ((longitude + 180) * PI / 180))
      with (4 * (longitude * PI / 180) + 2 * INR 2 * PI) by (cbn [INR]; field).
    now rewrite !cos_period.
Qed.

(** X29.  Over the extent of Turkey (latitude 36..42, longitude 26..45) the
    regional undulation stays between 30.8 m and 39.5 m, within the range
    of 25 m to 45 m that the module documents; it is 35 m at 39 N, 35 E. *)
Theorem turkeyGeoidUndulation_range (latitude longitude : R) :
  36 <= latitude <= 42 -> 26 <= longitude <= 45 ->
  308 / 10 <= Geoid.turkeyGeoidUndulation (num := RealNum) latitude longitude <= 395 / 10 /\
  Geoid.turkeyGeoidUndulation (num := RealNum) 39 35 = 35.
Proof.
  intros Hlat Hlon. unfold Geoid.turkeyGeoidUndulation. real_ops. eval_pow10.
  split; [ split; lra | field ].
Qed.

(** X30.  The Transverse Mercator scale factor is [k0] on the central
    meridian and nowhere below it: for [k0 >= 0] and a point where
    [cos(latitude) sin(longitude - centralMeridian)] is not [1] or [-1]
    (where the source divides by zero). *)
Theorem calculateTMScaleFactor_at_least_k0 (latitude longitude centralMeridian : R)
    (k0 : option R) :
  let k0' := match k0 with Some v => v | None => 9996 / 10000 end in
  Projections.calculateTMScaleFactor (num := RealNum) latitude centralMeridian
    centralMeridian k0 = k0' /\
  (0 <= k0' ->
   Rabs (cos latitude * sin (longitude - centralMeridian)) < 1 ->
   k0' <= Projections.calculateTMScaleFactor (num := RealNum) latitude longitude
            centralMeridian k0).
Proof.
  intros k0'. unfold Projections.calculateTMScaleFactor. real_ops. eval_pow10.
  fold k0'. split.
  - replace (centralMeridian - centralMeridian) with 0 by ring.
    rewrite sin_0. replace (1 - cos latitude * 0 * (cos latitude * 0)) with 1 by ring.
    rewrite sqrt_1. field.
  - intros Hk HB. set (B := cos latitude * sin (longitude - centralMeridian)) in *.
    apply Rabs_def2 in HB. destruct HB as [B1 B2].
    assert (HBB : 0 <= B * B < 1) by (split; nra).
    assert (Hs0 : 0 < sqrt (1 - B * B)) by (apply sqrt_lt_R0; lra).
    assert (Hs1 : sqrt (1 - B * B) <= 1).
    { rewrite <- sqrt_1 at 2. apply sqrt_le_1_alt. lra. }
    apply Rmult_le_reg_r with (sqrt (1 - B * B)); [ exact Hs0 | ].
    replace (k0' / sqrt (1 - B * B) * sqrt (1 - B * B)) with k0' by (field; lra).
    nra.
Qed.

End HeightFacts.

(** ** Instances of the properties above *)

Section PipelineInstances.

#[local] Existing Instance RefMath.lib.
Local Open Scope float_scope.

Lemma getTransformationParams_null_iff_witness :
  "Atlantis" <> "WGS84" /\
  getTransformationParams (T := float) "Atlantis" "WGS84" = Ok Null.
Proof.
  split; [ discriminate | ].
  apply (proj2 (getTransformationParams_null_iff (T := float) "Atlantis" "WGS84"));
    [ discriminate | left; reflexivity ].
Defined.

Lemma transformDatum_inherited_name_witness :
  DATUMS_at (T := float) "hasOwnProperty" = Inherited /\
  transformDatum (geographicCoords 41 29 None) "ED50" "hasOwnProperty" None =
    Throw TypeError.
Proof.
  split; [ reflexivity | ].
  apply (transformDatum_inherited_name (geographicCoords 41 29 None) "ED50"
           "hasOwnProperty" None);
    [ discriminate | discriminate | discriminate | right; reflexivity ].
Defined.

Lemma transformDatum_HD72_geographic_witness :
  transformDatum (geographicCoords 47 19 None) "WGS84" "HD72" None = Throw TypeError /\
  exists g : LatLonH float,
    transformDatum (geographicCoords 41 29 None) "ED50" "WGS84" None = Ok (ofLatLonH g).
Proof.
  split.
  - apply (proj1 (transformDatum_HD72_geographic (geographicCoords 47 19 None)
                    "WGS84" "HD72" _ _ None eq_refl ltac:(discriminate)
                    eq_refl eq_refl)).
    right. reflexivity.
  - apply (proj2 (transformDatum_HD72_geographic (geographicCoords 41 29 None)
                    "ED50" "WGS84" _ _ None eq_refl ltac:(discriminate)
                    eq_refl eq_refl)); discriminate.
Defined.

Lemma transformDatum_geocentric_total_witness :
  exists r : XYZ float,
    transformDatum (geocentricCoords 4000000 1500000 4700000) "HD72" "ED50"
      (Some "geocentric") = Ok (ofXYZ r).
Proof.
  eapply (transformDatum_geocentric_total (geocentricCoords 4000000 1500000 4700000)
            "HD72" "ED50");
    [ reflexivity | discriminate | reflexivity | reflexivity ].
Defined.

Lemma transformDatum_via_hub_witness :
  transformDatum (geocentricCoords 4000000 1500000 4700000) "ED50" "NAD27"
    (Some "geocentric") =
  (atHub <- transformDatum (geocentricCoords 4000000 1500000 4700000) "ED50" "WGS84"
              (Some "geocentric") ;;
   transformDatum atHub "WGS84" "NAD27" (Some "geocentric")).
Proof.
  eapply (transformDatum_via_hub (geocentricCoords 4000000 1500000 4700000)
            "ED50" "NAD27");
    [ reflexivity | discriminate | discriminate | discriminate | reflexivity
    | reflexivity ].
Defined.

Lemma helmertTransformation_translation_witness :
  helmertTransformation {| x := 4000000; y := 1500000; z := 4700000 |}
    (shift (-84) (-103) (-127)) =
  {| x := -84 + 4000000; y := -103 + 1500000; z := -127 + 4700000 |}.
Proof.
  apply (helmertTransformation_translation (shift (-84) (-103) (-127))
           4000000 1500000 4700000); reflexivity.
Defined.

End PipelineInstances.

Section RealInstances.

Local Open Scope R_scope.

Lemma WGS84_oblate : oblate WGS84.
Proof. unfold oblate, WGS84. cbn [ell_a ell_f]. real_ops. eval_pow10. lra. Qed.

Lemma getEllipsoidParams_identities_witness :
  let P := getEllipsoidParams (num := RealNum) WGS84 in
  0 < b P < a P /\ 0 < e2 P < 1 /\
  e2 P = (a P * a P - b P * b P) / (a P * a P) /\
  e P * e P = e2 P /\
  ep2 P = (a P * a P - b P * b P) / (b P * b P) /\
  ep P * ep P = ep2 P /\
  a P < c P.
Proof. exact (getEllipsoidParams_identities WGS84 WGS84_oblate). Defined.

Lemma radii_of_curvature_ordered_witness :
  let P := getEllipsoidParams (num := RealNum) WGS84 in
  let N := radiusOfCurvatureN (PI / 4) WGS84 in
  let M := radiusOfCurvatureM (PI / 4) WGS84 in
  a P * (1 - e2 P) <= M /\ M <= meanRadius (PI / 4) WGS84 /\
  meanRadius (PI / 4) WGS84 <= N /\ a P <= N /\ N <= c P.
Proof. exact (radii_of_curvature_ordered WGS84 WGS84_oblate (PI / 4)). Defined.

Lemma geographicToGeocentric_on_ellipsoid_witness :
  ellipsoidEquation WGS84 (geographicToGeocentric (num := RealNum) 41 29 0 WGS84) = 1.
Proof. exact (geographicToGeocentric_on_ellipsoid WGS84 WGS84_oblate 41 29). Defined.

Lemma round_trip_longitude_witness :
  lon (roundTrip (num := RealNum) 41 29 100 WGS84) = 29.
Proof.
  apply (round_trip_longitude WGS84 WGS84_oblate 41 29 100);
    [ lra | lra | cbn [a getEllipsoidParams WGS84 ell_a]; real_ops; lra ].
Defined.

Lemma geocentricToGeographic_polar_axis_witness :
  geocentricToGeographic (num := RealNum) 0 0 6400000 WGS84 =
    {| lat := 90; lon := 0; h := 6400000 - b (getEllipsoidParams WGS84) |}.
Proof.
  apply (proj1 (geocentricToGeographic_polar_axis WGS84 WGS84_oblate 6400000)). lra.
Defined.




Lemma molodenskyTransformation_identity_witness :
  molodenskyTransformation (num := RealNum) 41 29 100 WGS84 WGS84
    {| dx := 0; dy := 0; dz := 0 |} = {| lat := 41; lon := 29; h := 100 |}.
Proof.
  apply (molodenskyTransformation_identity WGS84 WGS84_oblate 41 29 100); [ lra | ].
  destruct (semi_axes WGS84 WGS84_oblate) as [Hb Hba].
  destruct (e2_range WGS84 WGS84_oblate) as [He0 He1].
  assert (0 < a (getEllipsoidParams (num := RealNum) WGS84) *
              (1 - e2 (getEllipsoidParams (num := RealNum) WGS84))) by nra.
  lra.
Defined.

Lemma vincentyDistance_along_equator_witness :
  exists r : GeodesicResult R,
    vincentyDistance (num := RealNum) 0 28 0 29 WGS84 = Some r /\
    azimuth12 r = 90 /\ azimuth21 r = 90 /\
    ell_a WGS84 * toRadians (num := RealNum) (29 - 28) - ell_a WGS84 / 1000000000000
      <= distance r <= ell_a WGS84 * toRadians (num := RealNum) (29 - 28).
Proof.
  apply (vincentyDistance_along_equator WGS84 28 29);
    [ exact WGS84_oblate
    | unfold WGS84; cbn [ell_f]; real_ops; eval_pow10; lra
    | lra ].
Defined.

Lemma getUTMZone_unnormalised_witness :
  getUTMZone (num := RealNum) 29 = Projections.getUTMZone (num := RealNum) 29 /\
  61 <= getUTMZone (num := RealNum) 180.
Proof.
  split.
  - apply (proj1 (getUTMZone_unnormalised 29)). lra.
  - apply (proj1 (proj2 (getUTMZone_unnormalised 180))). lra.
Defined.

Lemma utm_zone_holds_longitude_witness :
  exists entry : Projections.UTMZone R,
    Projections.zoneAt Projections.generateUTMZones
      (Projections.getUTMZone (num := RealNum) 29) = Some entry /\
    Projections.west (Projections.bounds entry) <= 29 <
      Projections.east (Projections.bounds entry) /\
    Rabs (29 - Projections.centralMeridian entry) <= 3.
Proof. apply (utm_zone_holds_longitude 29). lra. Defined.

Lemma getUTMEPSG_registered_witness :
  own proj4Defs (getUTMEPSG 35 (Some false)) =
  Some (Projections.proj4South (Projections.utmZone (T := R) 35)).
Proof. apply (getUTMEPSG_registered (T := R) 35 (Some false)). lia. Defined.

Lemma getProjectionCRS_registered_witness :
  exists definition : string,
    own proj4Defs (getProjectionCRS "TM30" 36 "N" "ED50") = Some definition.
Proof.
  apply (getProjectionCRS_registered "TM30" 36 "N" "ED50");
    [ cbn; tauto | lia ].
Defined.

Lemma turkeyGeoidUndulation_range_witness :
  308 / 10 <= Geoid.turkeyGeoidUndulation (num := RealNum) 41 29 <= 395 / 10 /\
  Geoid.turkeyGeoidUndulation (num := RealNum) 39 35 = 35.
Proof. apply (turkeyGeoidUndulation_range 41 29); lra. Defined.

Lemma calculateTMScaleFactor_at_least_k0_witness :
  9996 / 10000 <=
  Projections.calculateTMScaleFactor (num := RealNum) 0 0 0 None.
Proof.
  apply (proj2 (calculateTMScaleFactor_at_least_k0 0 0 0 None)).
  - lra.
  - replace (0 - 0) with 0 by ring. rewrite sin_0, Rmult_0_r, Rabs_R0. lra.
Defined.

End RealInstances.
